(** * Luster: channel entities, the channel factory, categories and the client

    A shallow embedding of [luster/channels.py], [luster/file.py] and
    [luster/client.py].

    Python objects are dynamically typed, so an instance is a class tag with
    a finite map from attribute names to runtime values, and a payload is a
    runtime value (normally a dict).  Methods that assign attributes one
    after the other and may raise in the middle are written in a small
    state-and-exception monad over the attribute map; code that allocates
    instances or talks to the HTTP handler runs in the same kind of monad
    over a world made of the object store and the log of requests. *)

From stdpp Require Import gmap strings list fin_maps.
From Stdlib Require Import ZArith.

Set Warnings "-register-all".
Set Default Proof Using "Type".

(** ** Runtime values *)

(** What a decoded payload can hold, plus [File] instances (the only
    non-JSON value that ends up in a channel attribute).  A [File] instance
    is carried by its attributes: nothing in the modelled code mutates a
    [File] after it is built or compares two of them by identity. *)
Inductive value : Type :=
  | VNone
  | VBool (b : bool)
  | VInt (z : Z)
  | VStr (s : string)
  | VList (l : list value)
  | VDict (d : gmap string value)
  | VFile (attrs : gmap string value).

(** [bool(v)]: the test behind [if v:]. *)
Definition truthy (v : value) : bool :=
  match v with
  | VNone => false
  | VBool b => b
  | VInt z => negb (Z.eqb z 0)
  | VStr s => negb (String.eqb s "")
  | VList l => match l with [] => false | _ :: _ => true end
  | VDict d => negb (bool_decide (d = ∅))
  | VFile _ => true
  end.

(** ** Exceptions and results *)

Inductive exn : Type :=
  | KeyError (key : string)
  | TypeError
  | AttributeError (name : string)
  | HTTPException
  | HTTPForbidden
  | InvalidRef.
(** [InvalidRef] belongs to the model only: it is the outcome of following a
    reference that names no object of the store, which no Python execution
    does. *)

Inductive result (A : Type) : Type :=
  | Ok (a : A)
  | Raise (e : exn).
Arguments Ok {A} a.
Arguments Raise {A} e.

(** [data[key]] for a string key: only a dict can be indexed that way. *)
Definition subscript (data : value) (key : string) : result value :=
  match data with
  | VDict d =>
      match d !! key with
      | Some v => Ok v
      | None => Raise (KeyError key)
      end
  | _ => Raise TypeError
  end.

(** [data.get(key, default)]. *)
Definition dict_get (data : value) (key : string) (default : value)
  : result value :=
  match data with
  | VDict d =>
      match d !! key with
      | Some v => Ok v
      | None => Ok default
      end
  | _ => Raise (AttributeError "get")
  end.

(** ** Methods of one instance *)

(** A method body that reads and assigns attributes of [self]: it maps the
    attribute map to the new attribute map and either a value or the
    exception that stopped it.  The assignments made before an exception
    stay. *)
Definition M (A : Type) : Type :=
  gmap string value → gmap string value * result A.

#[global] Instance M_ret : MRet M := λ A a s, (s, Ok a).
#[global] Instance M_bind : MBind M :=
  λ A B f m s,
    match m s with
    | (s', Ok a) => f a s'
    | (s', Raise e) => (s', Raise e)
    end.

(** Evaluate an expression that may raise. *)
Definition eval {A} (e : result A) : M A := λ s, (s, e).

(** [self.name = e]: the right-hand side is evaluated first. *)
Definition assign (name : string) (e : result value) : M unit :=
  λ s,
    match e with
    | Ok v => (<[name := v]> s, Ok tt)
    | Raise x => (s, Raise x)
    end.

(** A method body that does nothing but assign: what it writes and how it
    ends do not depend on the attributes it starts from. *)
Definition writes_only {A} (m : M A) : Prop :=
  ∃ (written : gmap string value) (r : result A),
    ∀ s, m s = (written ∪ s, r).

(** A method body that keeps attribute [name] at [v] (unset when [v] is
    [None]) whenever it starts there. *)
Definition preserves {A} (name : string) (v : option value) (m : M A)
  : Prop :=
  ∀ s, s !! name = v → (m s).1 !! name = v.

(** ** Entities *)

Inductive class : Type :=
  | ServerChannel
  | TextChannel
  | VoiceChannel
  | PrivateChannel
  | SavedMessages
  | DirectMessage
  | Group.

#[global] Instance class_eq_dec : EqDecision class.
Proof. solve_decision. Defined.

Section Entities.

(** [luster.internal.helpers.handle_optional_field(data, key, default, cls)]
    is not part of the sources at hand: it is a parameter, a function of
    its arguments that returns a value or raises. *)
Variable handle_optional_field :
  value → string → value → value → result value.

(** [File.__slots__] does not list [type].  Assigning [self.type] works when
    the instance has a [__dict__], which it has unless the base class
    [luster.internal.mixins.StateAware], not part of the sources at hand,
    declares [__slots__] itself: whether it has one is a parameter. *)
Variable File_has_dict : bool.

(** *** [File] (file.py) *)

(** [self.name = e] for a name that is no slot of the class. *)
Definition assign_unslotted (name : string) (e : result value) : M unit :=
  if File_has_dict then assign name e
  else (_ ← eval e; eval (Raise (AttributeError name))).

Definition File_unroll_metadata (data : value) : M unit :=
  metadata ← eval (subscript data "metadata");
  assign_unslotted "type" (subscript metadata "type").

Definition File_update_from_data (data : value) : M unit :=
  assign "id" (subscript data "_id");;
  assign "tag" (subscript data "tag");;
  assign "filename" (subscript data "filename");;
  assign "content_type" (subscript data "content_type");;
  assign "size" (subscript data "size");;
  assign "deleted"
    (handle_optional_field data "deleted" (VBool false) VNone);;
  assign "reported"
    (handle_optional_field data "reported" (VBool false) VNone);;
  assign "message_id" (dict_get data "message_id" VNone);;
  assign "user_id" (dict_get data "user_id" VNone);;
  assign "server_id" (dict_get data "server_id" VNone);;
  assign "object_id" (dict_get data "object_id" VNone);;
  File_unroll_metadata data.

(** [File(data, state)]: a new instance goes through [_update_from_data];
    when that raises, so does the constructor and no instance is left. *)
Definition File_new (data : value) : result value :=
  match File_update_from_data data ∅ with
  | (attrs, Ok _) => Ok (VFile attrs)
  | (_, Raise e) => Raise e
  end.

(** *** Channels (channels.py) *)

Definition ServerChannel_update_from_data (data : value) : M unit :=
  assign "id" (subscript data "_id");;
  assign "type" (subscript data "channel_type");;
  assign "server_id" (subscript data "server");;
  assign "name" (subscript data "name");;
  assign "description" (dict_get data "description" VNone);;
  assign "nsfw" (dict_get data "nsfw" (VBool false)).

Definition TextChannel_update_from_data (data : value) : M unit :=
  ServerChannel_update_from_data data;;
  assign "last_message_id" (dict_get data "last_message_id" VNone).

Definition PrivateChannel_update_from_data (data : value) : M unit :=
  assign "id" (subscript data "_id");;
  assign "type" (subscript data "channel_type").

Definition SavedMessages_update_from_data (data : value) : M unit :=
  PrivateChannel_update_from_data data;;
  assign "user_id" (subscript data "user").

Definition DirectMessage_update_from_data (data : value) : M unit :=
  PrivateChannel_update_from_data data;;
  assign "recipient_ids" (dict_get data "recipients" (VList []));;
  assign "active" (dict_get data "active" (VBool false));;
  assign "last_message_id" (dict_get data "last_message_id" VNone).

(** The value that [Group._update_from_data] gives to [self.icon] once
    [icon = data.get("icon")] has been read. *)
Definition Group_icon (icon : value) : result value :=
  if truthy icon then File_new icon else Ok VNone.

(** [super()] in [Group] is [PrivateChannel]: the method resolution order
    is Group, PrivateChannel, _EditChannelMixin. *)
Definition Group_update_from_data (data : value) : M unit :=
  PrivateChannel_update_from_data data;;
  assign "name" (subscript data "name");;
  assign "owner_id" (subscript data "owner");;
  assign "recipient_ids" (dict_get data "recipients" (VList []));;
  assign "description" (dict_get data "description" VNone);;
  assign "nsfw" (dict_get data "nsfw" (VBool false));;
  assign "last_message_id" (dict_get data "last_message_id" VNone);;
  icon ← eval (dict_get data "icon" VNone);
  assign "icon" (Group_icon icon).

(** [self._update_from_data(data)], resolved on the class of [self]. *)
Definition update_from_data (cls : class) : value → M unit :=
  match cls with
  | ServerChannel => ServerChannel_update_from_data
  | TextChannel => TextChannel_update_from_data
  | VoiceChannel => ServerChannel_update_from_data
  | PrivateChannel => PrivateChannel_update_from_data
  | SavedMessages => SavedMessages_update_from_data
  | DirectMessage => DirectMessage_update_from_data
  | Group => Group_update_from_data
  end.

End Entities.

(** ** The channel factory *)

Section Factory.

(** The members of [luster.enums.ChannelType], which is not part of the
    sources at hand: five string constants. *)
Variables TEXT_CHANNEL VOICE_CHANNEL SAVED_MESSAGES DIRECT_MESSAGE GROUP
  : string.

(** [tp == constant] where the constant is a [str]: nothing but an equal
    string compares equal to it. *)
Definition tag_eq (tp : value) (constant : string) : bool :=
  match tp with
  | VStr s => String.eqb s constant
  | _ => false
  end.

Definition channel_factory (tp : value) : class :=
  if tag_eq tp TEXT_CHANNEL then TextChannel
  else if tag_eq tp VOICE_CHANNEL then VoiceChannel
  else if tag_eq tp SAVED_MESSAGES then SavedMessages
  else if tag_eq tp DIRECT_MESSAGE then DirectMessage
  else if tag_eq tp GROUP then Group
  else PrivateChannel.

Definition known_tags : list string :=
  [TEXT_CHANNEL; VOICE_CHANNEL; SAVED_MESSAGES; DIRECT_MESSAGE; GROUP].

End Factory.

(** ** The object store and the transport *)

Abbreviation loc := positive.

Record object : Type := Object {
  obj_class : class;
  obj_attrs : gmap string value;
}.

(** The sentinel default [MISSING] of keyword parameters. *)
Inductive arg (A : Type) : Type :=
  | MISSING
  | Given (a : A).
Arguments MISSING {A}.
Arguments Given {A} a.

Definition arg_map {A B} (f : A → B) (a : arg A) : arg B :=
  match a with
  | MISSING => MISSING
  | Given x => Given (f x)
  end.

(** A readable binary stream, by the bytes it yields. *)
Definition BufferedReader : Type := list Byte.byte.

(** The body of an outgoing request, the [json] dict of [edit].  An entry
    holds whatever was stored under the key, which for ["name"] can be the
    sentinel itself. *)
Abbreviation body := (gmap string (arg value)).

Inductive request : Type :=
  | EditChannel (channel_id : value) (json : body)
  | UploadFile (file : BufferedReader) (tag : string).

Record world : Type := World {
  heap : gmap loc object;
  sent : list request;
}.

(** Code that allocates instances, mutates them through references and sends
    requests. *)
Definition W (A : Type) : Type := world → world * result A.

#[global] Instance W_ret : MRet W := λ A a w, (w, Ok a).
#[global] Instance W_bind : MBind W :=
  λ A B f m w,
    match m w with
    | (w', Ok a) => f a w'
    | (w', Raise e) => (w', Raise e)
    end.

(** Evaluate an expression that may raise. *)
Definition eval_w {A} (e : result A) : W A := λ w, (w, e).

(** [self.name], read through a reference. *)
Definition getattr (self : loc) (name : string) : W value :=
  λ w,
    match heap w !! self with
    | Some o =>
        match obj_attrs o !! name with
        | Some v => (w, Ok v)
        | None => (w, Raise (AttributeError name))
        end
    | None => (w, Raise InvalidRef)
    end.

(** [self.__class__]. *)
Definition class_of (self : loc) : W class :=
  λ w,
    match heap w !! self with
    | Some o => (w, Ok (obj_class o))
    | None => (w, Raise InvalidRef)
    end.

(** Modelled from the spec: [luster.internal.helpers.upsert_remove_value] is
    not part of the sources at hand.  The fields to clear travel in "a
    companion array of field names to clear": the name is appended to the
    array under ["remove"], which is created when it is not there yet. *)
Definition upsert_remove_value (json : body) (field : string) : body :=
  match json !! "remove" with
  | Some (Given (VList fields)) =>
      <["remove" := Given (VList (fields ++ [VStr field]))]> json
  | _ => <["remove" := Given (VList [VStr field])]> json
  end.

Section Transport.

Variable handle_optional_field :
  value → string → value → value → result value.
Variable File_has_dict : bool.

(** The HTTP handler is a collaborator: what it answers to a request, given
    the requests sent before, is a parameter.  It answers with the decoded
    response or raises. *)
Variable transport : list request → request → result value.

(** [bool(MISSING)]: the sentinel is defined in [luster.internal.helpers],
    which is not part of the sources at hand. *)
Variable MISSING_bool : bool.

Definition http_request (r : request) : W value :=
  λ w, ({| heap := heap w; sent := sent w ++ [r] |}, transport (sent w) r).

Definition http_edit_channel (channel_id : value) (json : body) : W value :=
  http_request (EditChannel channel_id json).

(** Modelled from the spec: [luster.internal.helpers.get_attachment_id] is
    not part of the sources at hand.  An icon is "either a pre-uploaded
    reference id or a raw byte stream; if a byte stream is given, the
    component must first invoke the upload collaborator to obtain an id",
    and the upload collaborator answers [{id, tag}]. *)
Definition get_attachment_id (target : string + BufferedReader)
    (tag : string) : W value :=
  match target with
  | inl attachment_id => mret (VStr attachment_id)
  | inr file =>
      response ← http_request (UploadFile file tag);
      eval_w (subscript response "id")
  end.

(** [cls(data, state)]: [__init__] runs [_update_from_data] on a new
    instance.  When it raises, the instance is never bound to anything. *)
Definition construct (cls : class) (data : value) : W loc :=
  λ w,
    match update_from_data handle_optional_field File_has_dict cls data ∅ with
    | (attrs, Ok _) =>
        let self := fresh (dom (heap w)) in
        ({| heap := <[self := Object cls attrs]> (heap w); sent := sent w |},
         Ok self)
    | (_, Raise e) => (w, Raise e)
    end.

(** [self._update_from_data(data)] on the instance behind a reference: the
    instance is changed where it is. *)
Definition call_update_from_data (self : loc) (data : value) : W unit :=
  λ w,
    match heap w !! self with
    | Some o =>
        let '(attrs, r) :=
          update_from_data handle_optional_field File_has_dict (obj_class o) data
            (obj_attrs o) in
        ({| heap := <[self := Object (obj_class o) attrs]> (heap w);
            sent := sent w |}, r)
    | None => (w, Raise InvalidRef)
    end.

(** [if name:] for [name: str = MISSING]. *)
Definition name_truthy (name : arg string) : bool :=
  match name with
  | MISSING => MISSING_bool
  | Given s => truthy (VStr s)
  end.

(** The first part of [_EditChannelMixin.edit] (lines 80 to 99): the
    request body built from the keyword arguments. *)
Definition edit_json (name : arg string)
    (description : arg (option string))
    (icon : arg (option (string + BufferedReader)))
    (nsfw : arg bool) : W body :=
  let json : body := ∅ in
  let json :=
    if name_truthy name then <["name" := arg_map VStr name]> json
    else json in
  let json :=
    match description with
    | MISSING => json
    | Given None => upsert_remove_value json "Description"
    | Given (Some text) => <["description" := Given (VStr text)]> json
    end in
  json ←
    match icon with
    | MISSING => mret json
    | Given None => mret (upsert_remove_value json "Icon")
    | Given (Some target) =>
        attachment_id ← get_attachment_id target "icons";
        mret (<["icon" := Given attachment_id]> json)
    end;
  mret
    match nsfw with
    | MISSING => json
    | Given flag => <["nsfw" := Given (VBool flag)]> json
    end.

(** [_EditChannelMixin.edit], inherited by [ServerChannel] (and so by
    [TextChannel] and [VoiceChannel]) and by [Group]: the body, then
    [if json:] (lines 101 to 106). *)
Definition edit (self : loc) (name : arg string)
    (description : arg (option string))
    (icon : arg (option (string + BufferedReader)))
    (nsfw : arg bool) : W (option loc) :=
  json ← edit_json name description icon nsfw;
  if bool_decide (json = ∅) then mret None
  else
    channel_id ← getattr self "id";
    data ← http_edit_channel channel_id json;
    cls ← class_of self;
    new ← construct cls data;
    mret (Some new).

End Transport.

(** ** The channel cache and categories *)

Module Cache.

(** The channels of the cache store, by id: references to the instances. *)
Abbreviation t := (gmap string loc).

(** Modelled from the spec: [luster.cache] is not part of the sources at
    hand.  The cache store is a "mapping from entity-kind-scoped ID to
    entity instance", and [get(kind, id) -> Entity | absent] "never raises;
    absence is a valid, expected state". *)
Definition get_channel (cache : t) (channel_id : string) : option loc :=
  cache !! channel_id.

(** Modelled from the spec: [upsert(kind, entity)] "replaces any existing
    entry with the same ID". *)
Definition upsert_channel (cache : t) (channel_id : string) (channel : loc)
  : t :=
  <[channel_id := channel]> cache.

(** Modelled from the spec: [remove(kind, id)], "used on delete events",
    after which the id is absent. *)
Definition remove_channel (cache : t) (channel_id : string) : t :=
  delete channel_id cache.

End Cache.

Module Category.

(** The attributes as they are declared: [id: str], [title: str],
    [channel_ids: List[str]]. *)
Record t : Type := Make {
  id : string;
  title : string;
  channel_ids : list string;
}.

(** One turn of the loop of [channels].  [if channel:] tells an instance
    from [None]: no channel class defines [__bool__] or [__len__], so an
    instance is always true. *)
Definition channels_step (cache : Cache.t) (ret : list loc)
    (channel_id : string) : list loc :=
  match Cache.get_channel cache channel_id with
  | Some channel => ret ++ [channel]
  | None => ret
  end.

(** [self.channels()], with the cache of [self._state]. *)
Definition channels (self : t) (cache : Cache.t) : list loc :=
  foldl (channels_step cache) [] (channel_ids self).

End Category.

(** ** The client (client.py) *)

Module Client.

Section Handler.

(** [Client] is generic in its HTTP handler, made by
    [luster.http.create_http_handler], which is not part of the sources
    at hand: the handler is a state with the two operations the client
    awaits, each of which may raise. *)
Variable handler : Type.
Variable handler_async_init : handler → handler * result unit.
Variable handler_close : handler → handler * result unit.

Record t : Type := Make {
  http_handler : handler;
  initialized : bool;
}.

(** [Client(...)], given the handler that was created. *)
Definition init (h : handler) : t :=
  {| http_handler := h; initialized := false |}.

Definition _async_init (self : t) : t * result unit :=
  if initialized self then (self, Ok tt)
  else
    match handler_async_init (http_handler self) with
    | (h, Ok _) => ({| http_handler := h; initialized := true |}, Ok tt)
    | (h, Raise e) =>
        ({| http_handler := h; initialized := initialized self |},
         Raise e)
    end.

Definition _cleanup (self : t) : t * result unit :=
  if negb (initialized self) then (self, Ok tt)
  else
    match handler_close (http_handler self) with
    | (h, Ok _) => ({| http_handler := h; initialized := false |}, Ok tt)
    | (h, Raise e) =>
        ({| http_handler := h; initialized := initialized self |},
         Raise e)
    end.

End Handler.

End Client.

(** ** Sample data *)

Module Samples.

(** One possible [handle_optional_field]: the value under the key, or the
    default. *)
Definition plain_optional_field (data : value) (key : string)
    (default cls : value) : result value :=
  dict_get data key default.

(** The payload of the group "Team". *)
Definition team : gmap string value :=
  list_to_map
    [("_id", VStr "g1"); ("channel_type", VStr "Group");
     ("name", VStr "Team"); ("owner", VStr "u1");
     ("description", VStr "hello");
     ("recipients", VList [VStr "u1"; VStr "u2"])].

(** The attributes of the [Group] constructed from [team]. *)
Definition team_group : gmap string value :=
  (Group_update_from_data plain_optional_field true (VDict team) ∅).1.

(** An update that carries the id and a new name and nothing else. *)
Definition rename : gmap string value :=
  list_to_map [("_id", VStr "g1"); ("name", VStr "Team2")].

(** An update that carries the required keys, with a new name. *)
Definition rename_full : gmap string value :=
  list_to_map
    [("_id", VStr "g1"); ("channel_type", VStr "Group");
     ("name", VStr "Team2"); ("owner", VStr "u1")].

(** An update addressed to another id, with another type tag. *)
Definition other_id : gmap string value :=
  list_to_map
    [("_id", VStr "g2"); ("channel_type", VStr "TextChannel");
     ("name", VStr "Team"); ("owner", VStr "u1")].

(** An update that flags the description for removal. *)
Definition clear_description : gmap string value :=
  list_to_map
    [("_id", VStr "g1"); ("remove", VList [VStr "Description"])].

(** The same with the required keys. *)
Definition clear_description_full : gmap string value :=
  list_to_map
    [("_id", VStr "g1"); ("channel_type", VStr "Group");
     ("name", VStr "Team"); ("owner", VStr "u1");
     ("remove", VList [VStr "Description"])].

(** A store that holds the group "Team" at reference 1, nothing sent. *)
Definition team_world : world :=
  {| heap := {[ 1%positive := Object Group team_group ]}; sent := [] |}.

(** A transport that answers every channel edit with the renamed group and
    every upload with the id ["a1"]. *)
Definition renaming_transport (history : list request) (r : request)
  : result value :=
  match r with
  | EditChannel _ _ => Ok (VDict rename_full)
  | UploadFile _ _ => Ok (VDict {[ "id" := VStr "a1" ]})
  end.

(** A handler that counts how often it was initialised and closed. *)
Definition counting_async_init (h : nat * nat) : (nat * nat) * result unit :=
  ((S h.1, h.2), Ok tt).
Definition counting_close (h : nat * nat) : (nat * nat) * result unit :=
  ((h.1, S h.2), Ok tt).

(** The category of the channels "a", "b" and "c", and a cache where only
    "a" and "c" are resident. *)
Definition abc : Category.t :=
  {| Category.id := "cat"; Category.title := "General";
     Category.channel_ids := ["a"; "b"; "c"] |}.
Definition a_and_c : gmap string loc :=
  {[ "a" := 10%positive; "c" := 30%positive ]}.

End Samples.

(** ** The assignments of [_update_from_data], as a table *)

(** Where an attribute takes its value from: [data[key]],
    [data.get(key, default)], or, for an icon,
    [File(icon, state) if icon else None] with [icon = data.get(key)]. *)
Inductive source : Type :=
  | Required (key : string)
  | Optional (key : string) (default : value)
  | OptionalFile (key : string).

Definition source_key (src : source) : string :=
  match src with
  | Required key | Optional key _ | OptionalFile key => key
  end.

(** The attributes that [_update_from_data] assigns and their sources, in the
    order of the source text ([super()] first). *)
Definition ServerChannel_fields : list (string * source) :=
  [("id", Required "_id"); ("type", Required "channel_type");
   ("server_id", Required "server"); ("name", Required "name");
   ("description", Optional "description" VNone);
   ("nsfw", Optional "nsfw" (VBool false))].

Definition PrivateChannel_fields : list (string * source) :=
  [("id", Required "_id"); ("type", Required "channel_type")].

Definition fields (cls : class) : list (string * source) :=
  match cls with
  | ServerChannel | VoiceChannel => ServerChannel_fields
  | TextChannel =>
      ServerChannel_fields ++
      [("last_message_id", Optional "last_message_id" VNone)]
  | PrivateChannel => PrivateChannel_fields
  | SavedMessages => PrivateChannel_fields ++ [("user_id", Required "user")]
  | DirectMessage =>
      PrivateChannel_fields ++
      [("recipient_ids", Optional "recipients" (VList []));
       ("active", Optional "active" (VBool false));
       ("last_message_id", Optional "last_message_id" VNone)]
  | Group =>
      PrivateChannel_fields ++
      [("name", Required "name"); ("owner_id", Required "owner");
       ("recipient_ids", Optional "recipients" (VList []));
       ("description", Optional "description" VNone);
       ("nsfw", Optional "nsfw" (VBool false));
       ("last_message_id", Optional "last_message_id" VNone);
       ("icon", OptionalFile "icon")]
  end.

(** The keys that a payload must have. *)
Definition required_keys (cls : class) : list string :=
  omap (λ f, match f.2 with Required key => Some key | _ => None end)
    (fields cls).

(** [__slots__] of each class with those of its bases, less ["_state"],
    which the model keeps outside the attributes. *)
Definition slots (cls : class) : list string :=
  match cls with
  | ServerChannel | VoiceChannel =>
      ["id"; "type"; "server_id"; "name"; "description"; "nsfw"]
  | TextChannel =>
      ["id"; "type"; "server_id"; "name"; "description"; "nsfw";
       "last_message_id"]
  | PrivateChannel => ["id"; "type"]
  | SavedMessages => ["id"; "type"; "user_id"]
  | DirectMessage =>
      ["id"; "type"; "recipient_ids"; "active"; "last_message_id"]
  | Group =>
      ["id"; "type"; "name"; "owner_id"; "recipient_ids"; "description";
       "icon"; "nsfw"; "last_message_id"]
  end.

(** An instance all of whose slots are set: reading a declared attribute of
    it does not raise [AttributeError]. *)
Definition complete (o : object) : Prop :=
  dom (obj_attrs o) = list_to_set (slots (obj_class o)).

Section Tables.

Variable handle_optional_field :
  value → string → value → value → result value.
Variable File_has_dict : bool.

(** The value read for one attribute. *)
Definition read (data : value) (src : source) : result value :=
  match src with
  | Required key => subscript data key
  | Optional key default => dict_get data key default
  | OptionalFile key =>
      match dict_get data key VNone with
      | Ok icon => Group_icon handle_optional_field File_has_dict icon
      | Raise e => Raise e
      end
  end.

(** The assignments of a table, one after the other. *)
Definition assign_fields (fs : list (string * source)) (data : value)
  : M unit :=
  foldr (λ f rest, assign f.1 (read data f.2) ≫= λ _, rest) (mret tt) fs.

End Tables.

(** *** [Category] from a payload (channels.py) *)

(** [Category._update_from_data]: the id is under ["id"], not ["_id"]. *)
Definition Category_update_from_data (data : value) : M unit :=
  assign "id" (subscript data "id");;
  assign "title" (subscript data "title");;
  assign "channel_ids" (dict_get data "channels" (VList [])).

Definition as_str (v : value) : option string :=
  match v with
  | VStr s => Some s
  | _ => None
  end.

(** The attributes of a category seen at their declared types, when they
    have them. *)
Definition Category_of_attrs (attrs : gmap string value)
  : option Category.t :=
  id ← attrs !! "id" ≫= as_str;
  title ← attrs !! "title" ≫= as_str;
  channel_ids ←
    attrs !! "channel_ids" ≫=
      (λ v, match v with VList l => mapM as_str l | _ => None end);
  Some (Category.Make id title channel_ids).

(** *** [File.url] (file.py) *)

Section Formatting.

(** [format(v, "")], which an f-string applies to each field: the text of the
    value.  Only what it does to a string matters below. *)
Variable format_value : value → string.

(** The property [File.url], on the attributes of a [File] instance. *)
Definition File_url (self : gmap string value) : result string :=
  match self !! "tag" with
  | None => Raise (AttributeError "tag")
  | Some tag =>
      match self !! "id" with
      | None => Raise (AttributeError "id")
      | Some id =>
          Ok ("https://autumn.revolt.chat/" +:+ format_value tag +:+ "/"
              +:+ format_value id)
      end
  end.

End Formatting.

(** ** Sequences of calls on the store *)

Inductive call : Type :=
  | Construct (cls : class) (data : value)
  | Update (self : loc) (data : value)
  | Edit (self : loc) (name : arg string)
      (description : arg (option string))
      (icon : arg (option (string + BufferedReader)))
      (nsfw : arg bool).

Section Calls.

Variable handle_optional_field :
  value → string → value → value → result value.
Variable File_has_dict : bool.
Variable transport : list request → request → result value.
Variable MISSING_bool : bool.

(** The world after one call, however the call ends: a caller that catches
    the exception goes on in that world. *)
Definition run_call (c : call) (w : world) : world :=
  match c with
  | Construct cls data =>
      (construct handle_optional_field File_has_dict cls data w).1
  | Update self data =>
      (call_update_from_data handle_optional_field File_has_dict self data
         w).1
  | Edit self name description icon nsfw =>
      (edit handle_optional_field File_has_dict transport MISSING_bool self
         name description icon nsfw w).1
  end.

Definition run_calls (cs : list call) (w : world) : world :=
  foldl (λ w c, run_call c w) w cs.

End Calls.

(** ** [async with client] (client.py) *)

Module ClientContext.

Section Handler.

Variable handler : Type.
Variable handler_async_init : handler → handler * result unit.
Variable handler_close : handler → handler * result unit.

(** [__aenter__] returns [self], which here is the state that comes back. *)
Definition __aenter__ (self : Client.t handler)
  : Client.t handler * result unit :=
  Client._async_init handler handler_async_init self.

(** [__aexit__] looks at none of its arguments and returns [None], so an
    exception of the block goes on. *)
Definition __aexit__ (self : Client.t handler)
  : Client.t handler * result unit :=
  Client._cleanup handler handler_close self.

(** [async with self: body]: when [__aenter__] raises the block is not run;
    otherwise [__aexit__] runs after the block, however the block ended, and
    the statement ends as [__aexit__] does when that raises and as the block
    did otherwise. *)
Definition async_with {A} (self : Client.t handler)
    (block : Client.t handler → Client.t handler * result A)
  : Client.t handler * result A :=
  match __aenter__ self with
  | (entered, Raise e) => (entered, Raise e)
  | (entered, Ok _) =>
      let '(after, r) := block entered in
      match __aexit__ after with
      | (closed, Ok _) => (closed, r)
      | (closed, Raise e) => (closed, Raise e)
      end
  end.

End Handler.

End ClientContext.

(** What holds of a world and of the world that a call leaves behind: the
    complete instances stay complete, every instance stays, with its class,
    and the requests sent before are the first of those sent. *)
Definition proceeds (w w' : world) : Prop :=
  ((∀ l o, heap w !! l = Some o → complete o) →
   ∀ l o, heap w' !! l = Some o → complete o)
  ∧ (∀ l o, heap w !! l = Some o →
       ∃ o', heap w' !! l = Some o' ∧ obj_class o' = obj_class o)
  ∧ sent w `prefix_of` sent w'.

(** ** More sample data *)

Module MoreSamples.

(** A direct message payload with its recipients and nothing optional. *)
Definition dm : gmap string value :=
  list_to_map
    [("_id", VStr "d1"); ("channel_type", VStr "DirectMessage");
     ("recipients", VList [VStr "u1"; VStr "u2"])].

(** A text channel, and an update for it that lacks the server. *)
Definition general : gmap string value :=
  list_to_map
    [("_id", VStr "c1"); ("channel_type", VStr "TextChannel");
     ("server", VStr "s1"); ("name", VStr "general")].
Definition general_channel : gmap string value :=
  (TextChannel_update_from_data (VDict general) ∅).1.
Definition moved : gmap string value :=
  list_to_map [("_id", VStr "c2"); ("channel_type", VStr "VoiceChannel")].

(** The payload of a file, as an icon has it. *)
Definition logo : gmap string value :=
  list_to_map
    [("_id", VStr "f1"); ("tag", VStr "icons"); ("filename", VStr "logo.png");
     ("content_type", VStr "image/png"); ("size", VInt 2048);
     ("metadata", VDict {[ "type" := VStr "Image" ]})].

(** The group "Team" with an attachment id where the icon payload should
    be. *)
Definition team_with_icon_id : gmap string value :=
  <["icon" := VStr "f1"]> Samples.team.

(** A transport that refuses everything. *)
Definition forbidding_transport (history : list request) (r : request)
  : result value :=
  Raise HTTPForbidden.

(** The text of a string, and nothing for the other values. *)
Definition format_str (v : value) : string :=
  match v with
  | VStr s => s
  | _ => ""
  end.

(** A category payload without channels. *)
Definition lobby : gmap string value :=
  list_to_map [("id", VStr "cat1"); ("title", VStr "Lobby")].

End MoreSamples.

(** * Properties *)

(** ** Expressions and method bodies *)

Lemma dict_get_dict (d : gmap string value) key default_value :
  dict_get (VDict d) key default_value = Ok (default default_value (d !! key)).
Proof. simpl. by destruct (d !! key). Qed.

Lemma subscript_dict (d : gmap string value) key v :
  d !! key = Some v → subscript (VDict d) key = Ok v.
Proof. simpl. by intros ->. Qed.

Lemma subscript_dict_None (d : gmap string value) key :
  d !! key = None → subscript (VDict d) key = Raise (KeyError key).
Proof. simpl. by intros ->. Qed.

Section MethodFacts.
Context {A B : Type}.

Lemma writes_only_ret (a : A) : writes_only (mret a : M A).
Proof. exists ∅, (Ok a). intros s. by rewrite (left_id_L ∅ (∪)). Qed.

Lemma writes_only_eval (e : result A) : writes_only (eval e).
Proof.
  exists ∅, e. intros s. unfold eval. by rewrite (left_id_L ∅ (∪)).
Qed.

Lemma writes_only_assign name e : writes_only (assign name e).
Proof.
  destruct e as [v|x].
  - exists {[name := v]}, (Ok tt). intros s. simpl.
    by rewrite insert_union_singleton_l.
  - exists ∅, (Raise x). intros s. simpl. by rewrite (left_id_L ∅ (∪)).
Qed.

Lemma writes_only_bind (m : M A) (f : A → M B) :
  writes_only m → (∀ a, writes_only (f a)) → writes_only (m ≫= f).
Proof.
  intros (w1 & r1 & Hm) Hf. destruct r1 as [a|x].
  - destruct (Hf a) as (w2 & r2 & Hfa).
    exists (w2 ∪ w1), r2. intros s.
    unfold mbind, M_bind. rewrite Hm, Hfa. by rewrite (assoc_L (∪)).
  - exists w1, (Raise x). intros s. unfold mbind, M_bind. by rewrite Hm.
Qed.

(** Running a body that only assigns a second time changes nothing. *)
Lemma writes_only_idempotent (m : M A) s :
  writes_only m → m (m s).1 = m s.
Proof.
  intros (w & r & Hm). rewrite !Hm. simpl.
  by rewrite (assoc_L (∪)), (idemp_L (∪)).
Qed.

Lemma M_bind_assoc {C} (m : M A) (f : A → M B) (g : B → M C) s :
  ((m ≫= f) ≫= g) s = (m ≫= (λ a, f a ≫= g)) s.
Proof. unfold mbind, M_bind. by destruct (m s) as [s' [a|x]]. Qed.

Lemma assign_Ok_bind name x (f : unit → M A) s :
  (assign name (Ok x) ≫= f) s = f tt (<[name := x]> s).
Proof. done. Qed.

Lemma preserves_apply name v (m : M A) s :
  preserves name v m → s !! name = v → (m s).1 !! name = v.
Proof. intros Hm. apply Hm. Qed.

Lemma preserves_ret name v (a : A) : preserves name v (mret a : M A).
Proof. by intros s Hs. Qed.

Lemma preserves_eval name v (e : result A) : preserves name v (eval e).
Proof. by intros s Hs. Qed.

Lemma preserves_assign_ne name v other e :
  other ≠ name → preserves name v (assign other e).
Proof.
  intros Hne s Hs. destruct e; simpl; [|done].
  by rewrite lookup_insert_ne.
Qed.

Lemma preserves_assign_eq name v e :
  (∀ x, e = Ok x → v = Some x) → preserves name v (assign name e).
Proof.
  intros He s Hs. destruct e as [x|]; simpl; [|done].
  by rewrite lookup_insert_eq, (He x).
Qed.

Lemma preserves_bind name v (m : M A) (f : A → M B) :
  preserves name v m → (∀ a, preserves name v (f a)) →
  preserves name v (m ≫= f).
Proof.
  intros Hm Hf s Hs. specialize (Hm s Hs).
  unfold mbind, M_bind. destruct (m s) as [s' [a|x]]; simpl in *; [|done].
  by apply Hf.
Qed.
End MethodFacts.

Ltac writes_only :=
  repeat first
    [ apply writes_only_assign
    | apply writes_only_eval
    | apply writes_only_ret
    | apply writes_only_bind; [| intros ? ] ].

Ltac preserves :=
  repeat first
    [ apply preserves_assign_ne; done
    | apply preserves_assign_eq; assumption
    | apply preserves_eval
    | apply preserves_ret
    | apply preserves_bind; [| intros ? ] ].

Ltac unfold_update :=
  unfold TextChannel_update_from_data, ServerChannel_update_from_data,
    SavedMessages_update_from_data, DirectMessage_update_from_data,
    Group_update_from_data, PrivateChannel_update_from_data.

(** ** Updating an entity from a payload *)

Section EntityFacts.

Variable handle_optional_field :
  value → string → value → value → result value.
Variable File_has_dict : bool.

Lemma update_from_data_writes_only cls data :
  writes_only (update_from_data handle_optional_field File_has_dict cls data).
Proof. destruct cls; simpl; unfold_update; writes_only. Qed.

Lemma update_from_data_preserves cls data name v :
  (name = "id" → ∀ x, subscript data "_id" = Ok x → v = Some x) →
  (name = "type" → ∀ x, subscript data "channel_type" = Ok x → v = Some x) →
  name = "id" ∨ name = "type" →
  preserves name v (update_from_data handle_optional_field File_has_dict cls data).
Proof.
  intros Hid Htype [-> | ->].
  - specialize (Hid eq_refl). clear Htype.
    destruct cls; simpl; unfold_update; preserves.
  - specialize (Htype eq_refl). clear Hid.
    destruct cls; simpl; unfold_update; preserves.
Qed.

(** The attributes of [self] after [Group._update_from_data], for a
    payload that has the four keys read with [data[...]] and an icon that
    is absent, false or accepted by [File]. *)
Lemma Group_update_from_data_full
    (d attrs : gmap string value) (id tp name owner icon : value) :
  d !! "_id" = Some id →
  d !! "channel_type" = Some tp →
  d !! "name" = Some name →
  d !! "owner" = Some owner →
  Group_icon handle_optional_field File_has_dict (default VNone (d !! "icon")) = Ok icon →
  Group_update_from_data handle_optional_field File_has_dict (VDict d) attrs =
    (<["icon" := icon]>
       (<["last_message_id" := default VNone (d !! "last_message_id")]>
       (<["nsfw" := default (VBool false) (d !! "nsfw")]>
       (<["description" := default VNone (d !! "description")]>
       (<["recipient_ids" := default (VList []) (d !! "recipients")]>
       (<["owner_id" := owner]>
       (<["name" := name]>
       (<["type" := tp]>
       (<["id" := id]> attrs)))))))),
     Ok tt).
Proof.
  intros Hid Htp Hname Howner Hicon. unfold_update.
  rewrite !dict_get_dict, (subscript_dict _ _ _ Hid),
    (subscript_dict _ _ _ Htp), (subscript_dict _ _ _ Hname),
    (subscript_dict _ _ _ Howner).
  unfold mbind, M_bind, assign, eval. by rewrite Hicon.
Qed.

(** The first of the required keys that the payload lacks stops
    [Group._update_from_data] with a [KeyError]. *)
Lemma Group_update_from_data_KeyError (d attrs : gmap string value) key :
  find (λ k, bool_decide (d !! k = None))
    ["_id"; "channel_type"; "name"; "owner"] = Some key →
  (Group_update_from_data handle_optional_field File_has_dict (VDict d) attrs).2
  = Raise (KeyError key).
Proof.
  unfold_update. unfold mbind, M_bind, assign, eval. simpl.
  repeat
    match goal with
    | |- context [bool_decide (d !! ?k = None)] =>
        destruct (d !! k) eqn:?;
          [ rewrite bool_decide_eq_false_2 by done; simpl
          | rewrite bool_decide_eq_true_2 by done; by intros [= <-] ]
    end.
  done.
Qed.

End EntityFacts.

Section UpdateFacts.

Variable handle_optional_field :
  value → string → value → value → result value.
Variable File_has_dict : bool.

(** C1 (as amended).  For every Group entity, [_update_from_data] with a
    payload that carries the keys "_id", "channel_type", "name" and
    "owner", and whose icon is absent, false or accepted by [File],
    succeeds and sets every field from the payload: a key that is present
    overwrites its field, and an optional key that is absent resets its
    field to the default (recipient_ids [], description None, nsfw False,
    last_message_id None, icon None) instead of leaving it as it was.
    Attributes other than these nine are left alone. *)
Theorem Group_update_from_data_overwrites
    (d attrs : gmap string value) (id tp name owner icon : value) :
  d !! "_id" = Some id →
  d !! "channel_type" = Some tp →
  d !! "name" = Some name →
  d !! "owner" = Some owner →
  Group_icon handle_optional_field File_has_dict (default VNone (d !! "icon")) = Ok icon →
  let after :=
    Group_update_from_data handle_optional_field File_has_dict (VDict d) attrs in
  after.2 = Ok tt ∧
  after.1 !! "id" = Some id ∧
  after.1 !! "type" = Some tp ∧
  after.1 !! "name" = Some name ∧
  after.1 !! "owner_id" = Some owner ∧
  after.1 !! "recipient_ids" = Some (default (VList []) (d !! "recipients")) ∧
  after.1 !! "description" = Some (default VNone (d !! "description")) ∧
  after.1 !! "nsfw" = Some (default (VBool false) (d !! "nsfw")) ∧
  after.1 !! "last_message_id"
    = Some (default VNone (d !! "last_message_id")) ∧
  after.1 !! "icon" = Some icon ∧
  ∀ other,
    other ∉ ["id"; "type"; "name"; "owner_id"; "recipient_ids";
             "description"; "nsfw"; "last_message_id"; "icon"] →
    after.1 !! other = attrs !! other.
Proof.
  intros Hid Htp Hname Howner Hicon after. subst after.
  rewrite (Group_update_from_data_full _ _ _ _ _ _ _ _ _
             Hid Htp Hname Howner Hicon).
  simpl. repeat split; try by simplify_map_eq.
  intros other Hother. rewrite !not_elem_of_cons in Hother.
  destruct Hother as (?&?&?&?&?&?&?&?&?&_).
  by rewrite !lookup_insert_ne.
Qed.

(** A payload without "_id" (or one that is no dict) stops
    [_update_from_data] before anything is assigned. *)
Lemma update_from_data_no_id cls data (attrs : gmap string value) e :
  subscript data "_id" = Raise e →
  update_from_data handle_optional_field File_has_dict cls data attrs = (attrs, Raise e).
Proof.
  intros Hid.
  by destruct cls; simpl; unfold_update; rewrite ?M_bind_assoc, Hid.
Qed.

(** After [_update_from_data] the id is the one of the payload, when it has
    one. *)
Lemma update_from_data_assigns_id cls data (attrs : gmap string value) v :
  subscript data "_id" = Ok v →
  (update_from_data handle_optional_field File_has_dict cls data attrs).1 !! "id" = Some v.
Proof.
  intros Hid.
  destruct cls; simpl; unfold_update;
    rewrite ?M_bind_assoc, Hid, assign_Ok_bind;
    (apply preserves_apply; [preserves | by rewrite lookup_insert_eq]).
Qed.

(** And the type is the one of the payload, when it has an id and a type. *)
Lemma update_from_data_assigns_type cls data (attrs : gmap string value)
    v tp :
  subscript data "_id" = Ok v →
  subscript data "channel_type" = Ok tp →
  (update_from_data handle_optional_field File_has_dict cls data attrs).1 !! "type"
  = Some tp.
Proof.
  intros Hid Htp.
  destruct cls; simpl; unfold_update;
    rewrite ?M_bind_assoc, Hid, assign_Ok_bind, ?M_bind_assoc, Htp;
    try (rewrite assign_Ok_bind; apply preserves_apply; [preserves|]);
    simpl; by rewrite lookup_insert_eq.
Qed.

(** A payload whose "_id" and "channel_type", where it has them, are the
    current id and type leaves id and type as they are. *)
Lemma update_from_data_keeps_id_and_type cls data
    (attrs : gmap string value) :
  (∀ v, subscript data "_id" = Ok v → attrs !! "id" = Some v) →
  (∀ v, subscript data "channel_type" = Ok v → attrs !! "type" = Some v) →
  let after := update_from_data handle_optional_field File_has_dict cls data attrs in
  after.1 !! "id" = attrs !! "id" ∧ after.1 !! "type" = attrs !! "type".
Proof.
  intros Hid Htype after. subst after.
  split; (apply preserves_apply; [|done]);
    apply update_from_data_preserves; auto; done.
Qed.

(** C2 (as amended).  For every channel entity and every payload,
    [_update_from_data] leaves as id the "_id" of the payload when it has
    one and the id it found otherwise, and as type the "channel_type" of
    the payload when it has both keys and the type it found otherwise,
    whether the update completes or raises.  So id and type stay as they
    were under a payload whose "_id" and "channel_type" are absent or equal
    to them, and a payload with another "_id" or "channel_type" overwrites
    them. *)
Theorem update_from_data_id_and_type cls data (attrs : gmap string value) :
  let after := update_from_data handle_optional_field File_has_dict cls data attrs in
  after.1 !! "id"
    = match subscript data "_id" with
      | Ok v => Some v
      | Raise _ => attrs !! "id"
      end
  ∧ after.1 !! "type"
    = match subscript data "_id", subscript data "channel_type" with
      | Ok _, Ok tp => Some tp
      | _, _ => attrs !! "type"
      end.
Proof.
  intros after. subst after.
  destruct (subscript data "_id") as [v|] eqn:Hid.
  - split; [by apply update_from_data_assigns_id|].
    destruct (subscript data "channel_type") as [tp|] eqn:Htp.
    + by eapply update_from_data_assigns_type.
    + apply preserves_apply; [|done].
      apply update_from_data_preserves; [done| |by right].
      intros _ x. by rewrite Htp.
  - by rewrite (update_from_data_no_id _ _ _ _ Hid).
Qed.

(** [_update_from_data] through a reference a second time leaves the store
    as the first call left it and ends the same way. *)
Lemma call_update_from_data_idempotent self data w :
  call_update_from_data handle_optional_field File_has_dict self data
    (call_update_from_data handle_optional_field File_has_dict self data w).1
  = call_update_from_data handle_optional_field File_has_dict self data w.
Proof.
  unfold call_update_from_data.
  destruct (heap w !! self) as [o|] eqn:Hself; simpl; [|by rewrite Hself].
  pose proof (writes_only_idempotent _ (obj_attrs o)
    (update_from_data_writes_only handle_optional_field File_has_dict
       (obj_class o) data))
    as Hidem.
  destruct (update_from_data _ _ (obj_class o) data (obj_attrs o))
    as [attrs r] eqn:Hupd.
  simpl in *. rewrite lookup_insert_eq. simpl.
  by rewrite Hidem, insert_insert_eq.
Qed.

(** C6.  Partial update is idempotent: for every channel class, payload
    and attribute state, running [_update_from_data] with the same
    payload a second time gives the attributes and the outcome of the
    first run, and so does calling it twice on an instance of the store.
    No field is treated apart: a field that the payload leaves out or
    flags in a clear list is reset by the first run and stays so. *)
Theorem update_from_data_idempotent cls data (attrs : gmap string value)
    self w :
  update_from_data handle_optional_field File_has_dict cls data
    (update_from_data handle_optional_field File_has_dict cls data attrs).1
  = update_from_data handle_optional_field File_has_dict cls data attrs
  ∧ call_update_from_data handle_optional_field File_has_dict self data
      (call_update_from_data handle_optional_field File_has_dict self data w).1
    = call_update_from_data handle_optional_field File_has_dict self data w.
Proof.
  split.
  - apply writes_only_idempotent, update_from_data_writes_only.
  - apply call_update_from_data_idempotent.
Qed.

(** C8 (as amended).  For every Group entity, whatever its description,
    [_update_from_data] with a payload that carries the keys "_id",
    "channel_type", "name" and "owner" and no "description" key, with or
    without an array of fields to clear, leaves description None. *)
Theorem Group_update_from_data_clears_description
    (d attrs : gmap string value) :
  is_Some (d !! "_id") →
  is_Some (d !! "channel_type") →
  is_Some (d !! "name") →
  is_Some (d !! "owner") →
  d !! "description" = None →
  (Group_update_from_data handle_optional_field File_has_dict (VDict d) attrs).1
    !! "description" = Some VNone.
Proof.
  intros [? Hid] [? Htp] [? Hname] [? Howner] Hdesc. unfold_update.
  rewrite !dict_get_dict, (subscript_dict _ _ _ Hid),
    (subscript_dict _ _ _ Htp), (subscript_dict _ _ _ Hname),
    (subscript_dict _ _ _ Howner), Hdesc.
  unfold mbind, M_bind, assign, eval.
  destruct (Group_icon _ _); simpl; by simplify_map_eq.
Qed.

(** The array of fields to clear is never read: adding one to a payload, or
    changing it, changes nothing in what [Group._update_from_data] does. *)
Lemma Group_update_from_data_ignores_remove
    (d attrs : gmap string value) (fields : value) :
  Group_update_from_data handle_optional_field File_has_dict
    (VDict (<["remove" := fields]> d)) attrs
  = Group_update_from_data handle_optional_field File_has_dict (VDict d) attrs.
Proof.
  unfold_update. unfold subscript, dict_get.
  by rewrite !lookup_insert_ne.
Qed.

End UpdateFacts.

(** ** References: updating in place and editing *)

Section EditFacts.

Variable handle_optional_field :
  value → string → value → value → result value.
Variable File_has_dict : bool.
Variable transport : list request → request → result value.
Variable MISSING_bool : bool.

Lemma http_request_heap r w :
  heap (http_request transport r w).1 = heap w.
Proof. done. Qed.

(** Building the request body allocates nothing and touches no instance. *)
Lemma edit_json_heap name description icon nsfw w :
  heap (edit_json transport MISSING_bool name description icon nsfw w).1
  = heap w.
Proof.
  unfold edit_json.
  destruct icon as [|[[attachment_id|file]|]]; try done.
  simpl. unfold mbind, W_bind, eval_w. simpl.
  destruct (transport _ _) as [response|]; simpl; [|done].
  by destruct (subscript response "id").
Qed.

(** With the sentinel false and every argument left out, the body stays
    empty and nothing is sent. *)
Lemma edit_json_MISSING w :
  MISSING_bool = false →
  edit_json transport MISSING_bool MISSING MISSING MISSING MISSING w
  = (w, Ok ∅).
Proof. intros Hfalse. unfold edit_json. simpl. by rewrite Hfalse. Qed.

(** [_update_from_data] through a reference: the instance behind [self] is
    the one that changes, no instance appears or goes, nothing is sent. *)
Lemma call_update_from_data_in_place self o data w :
  heap w !! self = Some o →
  let after :=
    call_update_from_data handle_optional_field File_has_dict self data w in
  let updated :=
    update_from_data handle_optional_field File_has_dict (obj_class o) data
      (obj_attrs o) in
  after.2 = updated.2 ∧
  heap (after.1) !! self = Some (Object (obj_class o) updated.1) ∧
  dom (heap (after.1)) = dom (heap w) ∧
  sent (after.1) = sent w ∧
  ∀ other, other ≠ self → heap (after.1) !! other = heap w !! other.
Proof.
  intros Hself. unfold call_update_from_data. rewrite Hself.
  destruct (update_from_data _ _ _ _ _) as [attrs r]. simpl.
  repeat split.
  - by rewrite lookup_insert_eq.
  - by apply dom_insert_lookup_L.
  - intros other Hother. by rewrite lookup_insert_ne.
Qed.

(** What [edit] leaves behind, by the way it ends. *)
Lemma edit_outcome self o name description icon nsfw w :
  heap w !! self = Some o →
  match
    edit handle_optional_field File_has_dict transport MISSING_bool self
      name description icon nsfw w
  with
  | (w', Ok (Some new)) =>
      (new ∉ dom (heap w)) ∧
      heap w' !! self = Some o ∧
      ∃ prior channel_id json response attrs,
        sent w' = prior ++ [EditChannel channel_id json] ∧
        transport prior (EditChannel channel_id json) = Ok response ∧
        update_from_data handle_optional_field File_has_dict (obj_class o) response ∅
          = (attrs, Ok tt) ∧
        heap w' = <[new := Object (obj_class o) attrs]> (heap w)
  | (w', _) => heap w' = heap w
  end.
Proof.
  intros Hself. unfold edit, mbind, W_bind.
  pose proof (edit_json_heap name description icon nsfw w) as Hheap.
  destruct (edit_json _ _ _ _ _ _ w) as [w1 [json|e]]; simpl in Hheap;
    [|done].
  case_bool_decide; [done|].
  unfold getattr, class_of, http_edit_channel, http_request, construct.
  cbn beta. rewrite Hheap, Hself.
  destruct (obj_attrs o !! "id") as [channel_id|]; [|done].
  simpl. rewrite Hheap, Hself.
  destruct (transport _ _) as [response|] eqn:Hresponse; [|done].
  simpl.
  destruct (update_from_data _ _ _ _ _) as [attrs [[]|]] eqn:Hupdate;
    [|done].
  simpl.
  assert (fresh (dom (heap w)) ∉ dom (heap w)) as Hfresh by apply is_fresh.
  split_and!; [done| |by eauto 10].
  rewrite lookup_insert_ne; [done|].
  intros <-. apply Hfresh. by eapply elem_of_dom_2.
Qed.

(** C9.  With a false [MISSING] sentinel, [edit] with every parameter left
    out does nothing: the world it returns is the world it was given (no
    request is added to those sent, no instance is added to the store, no
    attribute changes) and its result is None. *)
Theorem edit_nothing_is_noop self w :
  MISSING_bool = false →
  edit handle_optional_field File_has_dict transport MISSING_bool self
    MISSING MISSING MISSING MISSING w
  = (w, Ok None).
Proof.
  intros Hfalse. unfold edit, mbind, W_bind.
  by rewrite edit_json_MISSING.
Qed.

(** A true sentinel would be stored under "name" and sent. *)
Lemma edit_nothing_true_sentinel self o channel_id w :
  MISSING_bool = true →
  heap w !! self = Some o →
  obj_attrs o !! "id" = Some channel_id →
  sent (edit handle_optional_field File_has_dict transport MISSING_bool self
          MISSING MISSING MISSING MISSING w).1
  = sent w ++ [EditChannel channel_id {[ "name" := MISSING ]}].
Proof.
  intros Htrue Hself Hid.
  unfold edit, edit_json, mbind, W_bind. simpl. rewrite Htrue. simpl.
  rewrite bool_decide_eq_false_2 by apply insert_non_empty.
  unfold getattr, class_of, http_edit_channel, http_request, construct.
  cbn beta. rewrite Hself, Hid. simpl. rewrite Hself.
  destruct (transport _ _); [|done]. simpl.
  by destruct (update_from_data _ _ _ _ _) as [? [[]|]].
Qed.

End EditFacts.

(** ** The channel factory *)

Lemma tag_eq_true tp constant :
  tag_eq tp constant = true ↔ tp = VStr constant.
Proof.
  destruct tp; simpl; try (split; [discriminate | intros [=]]).
  rewrite String.eqb_eq. split; [by intros -> | by intros [= ->]].
Qed.

Lemma tag_eq_false tp constant :
  tag_eq tp constant = false ↔ tp ≠ VStr constant.
Proof.
  rewrite <-tag_eq_true. by destruct (tag_eq tp constant).
Qed.

Section FactoryFacts.

Variable handle_optional_field :
  value → string → value → value → result value.
Variable File_has_dict : bool.
Variables TEXT_CHANNEL VOICE_CHANNEL SAVED_MESSAGES DIRECT_MESSAGE GROUP
  : string.

#[local] Abbreviation factory :=
  (channel_factory TEXT_CHANNEL VOICE_CHANNEL SAVED_MESSAGES
     DIRECT_MESSAGE GROUP).
#[local] Abbreviation tags :=
  (known_tags TEXT_CHANNEL VOICE_CHANNEL SAVED_MESSAGES
     DIRECT_MESSAGE GROUP).

Lemma channel_factory_unknown tp :
  tp ∉ VStr <$> tags → factory tp = PrivateChannel.
Proof.
  unfold known_tags. rewrite !fmap_cons.
  rewrite !not_elem_of_cons. intros (?&?&?&?&?&_).
  unfold channel_factory.
  by rewrite !(proj2 (tag_eq_false _ _)).
Qed.

(** [PrivateChannel(data, state)] for a payload with an id and a type. *)
Lemma construct_PrivateChannel (d : gmap string value) id tp w :
  d !! "_id" = Some id →
  d !! "channel_type" = Some tp →
  construct handle_optional_field File_has_dict PrivateChannel (VDict d) w
  = ({| heap :=
          <[fresh (dom (heap w)) :=
              Object PrivateChannel (<["type" := tp]> (<["id" := id]> ∅))]>
            (heap w);
        sent := sent w |},
     Ok (fresh (dom (heap w)))).
Proof.
  intros Hid Htp. unfold construct. simpl. unfold_update.
  by rewrite (subscript_dict _ _ _ Hid), (subscript_dict _ _ _ Htp).
Qed.

(** C3.  With five distinct type tags, [channel_factory] maps each of them
    to its class, and every other value (a string that is none of the
    five, or no string at all) to [PrivateChannel]; it is a function, so it
    answers for every value and depends on nothing else.  Constructing
    the class chosen for such a value from a payload that carries an id and
    that type tag succeeds, and the new instance has exactly the
    attributes id and type, with the values of the payload. *)
Theorem channel_factory_total :
  NoDup tags →
  factory (VStr TEXT_CHANNEL) = TextChannel ∧
  factory (VStr VOICE_CHANNEL) = VoiceChannel ∧
  factory (VStr SAVED_MESSAGES) = SavedMessages ∧
  factory (VStr DIRECT_MESSAGE) = DirectMessage ∧
  factory (VStr GROUP) = Group ∧
  ∀ tp,
    tp ∉ VStr <$> tags →
    factory tp = PrivateChannel ∧
    ∀ (d : gmap string value) id w,
      d !! "_id" = Some id →
      d !! "channel_type" = Some tp →
      construct handle_optional_field File_has_dict (factory tp) (VDict d) w
      = ({| heap :=
              <[fresh (dom (heap w)) :=
                  Object PrivateChannel
                    (<["type" := tp]> (<["id" := id]> ∅))]> (heap w);
            sent := sent w |},
         Ok (fresh (dom (heap w)))).
Proof.
  unfold known_tags. intros Hdistinct.
  repeat (apply NoDup_cons in Hdistinct as [? Hdistinct]).
  repeat match goal with
         | H : _ ∉ _ |- _ => rewrite !not_elem_of_cons in H
         end.
  destruct_and!.
  split_and!;
    try (unfold channel_factory; simpl;
         repeat match goal with
                | |- context [String.eqb ?a ?b] =>
                    destruct (String.eqb_spec a b); try congruence
                end;
         fail).
  intros tp Hunknown. split; [by apply channel_factory_unknown|].
  intros d id w Hid Htp.
  rewrite channel_factory_unknown by done.
  by apply construct_PrivateChannel.
Qed.

End FactoryFacts.

(** ** Categories *)

Lemma channels_foldl (cache : gmap string loc) channel_ids ret :
  foldl (Category.channels_step cache) ret channel_ids
  = ret ++ omap (Cache.get_channel cache) channel_ids.
Proof.
  revert ret. induction channel_ids as [|channel_id channel_ids IH];
    intros ret; simpl.
  - by rewrite app_nil_r.
  - rewrite IH. unfold Category.channels_step.
    destruct (Cache.get_channel cache channel_id); [|done].
    by rewrite <-app_assoc.
Qed.

Lemma omap_length_le {A B} (f : A → option B) (l : list A) :
  length (omap f l) ≤ length l.
Proof.
  induction l as [|x l IH]; simpl; [done|].
  change (list_omap A B f l) with (omap f l).
  destruct (f x); simpl; lia.
Qed.

Lemma channels_omap self (cache : gmap string loc) :
  Category.channels self cache
  = omap (Cache.get_channel cache) (Category.channel_ids self).
Proof. unfold Category.channels. by rewrite channels_foldl. Qed.

(** C4.  For every category and every cache, [channels()] returns the
    cached channels of [channel_ids], one for each id that the cache
    resolves, in the order of the ids; an id that the cache does not resolve
    contributes nothing, and no outcome other than a list exists.  So the
    list holds a channel exactly when the cache resolves an id of
    [channel_ids] to it, and is never longer than [channel_ids]. *)
Theorem Category_channels_resolves self (cache : gmap string loc) :
  Category.channels self cache
  = omap (Cache.get_channel cache) (Category.channel_ids self)
  ∧ (∀ channel,
       channel ∈ Category.channels self cache ↔
       ∃ channel_id,
         channel_id ∈ Category.channel_ids self ∧
         Cache.get_channel cache channel_id = Some channel)
  ∧ length (Category.channels self cache)
    ≤ length (Category.channel_ids self).
Proof.
  rewrite channels_omap. split_and!; [done| |apply omap_length_le].
  intros channel. apply list_elem_of_omap.
Qed.

(** The scenario of the specification: of "a", "b" and "c" only "a" and "c"
    are cached, and [channels()] gives their two instances in that order. *)
Example Category_channels_a_c :
  Category.channels Samples.abc Samples.a_and_c = [10%positive; 30%positive].
Proof. reflexivity. Qed.

(** C5.  [channels()] keeps nothing between calls: its result is a function
    of the [channel_ids] and of the cache it is called with.  For every
    category and every id of its [channel_ids]: once a channel is upserted
    into the cache under that id, the next call resolves the id to that
    channel (and the other ids as before), so the channel is in the result;
    once the id is removed from the cache, the next call returns what the
    category without that id would have returned, and every channel in it is
    resolved from another id. *)
Theorem Category_channels_recomputed self (cache : gmap string loc)
    channel_id channel :
  channel_id ∈ Category.channel_ids self →
  Category.channels self (Cache.upsert_channel cache channel_id channel)
  = omap (λ other, if decide (other = channel_id) then Some channel
                   else Cache.get_channel cache other)
      (Category.channel_ids self)
  ∧ channel
    ∈ Category.channels self (Cache.upsert_channel cache channel_id channel)
  ∧ Category.channels self (Cache.remove_channel cache channel_id)
    = Category.channels
        {| Category.id := Category.id self;
           Category.title := Category.title self;
           Category.channel_ids :=
             filter (λ other, other ≠ channel_id)
               (Category.channel_ids self) |}
        cache
  ∧ ∀ resolved,
      resolved
      ∈ Category.channels self (Cache.remove_channel cache channel_id) →
      ∃ other,
        other ≠ channel_id ∧ other ∈ Category.channel_ids self ∧
        Cache.get_channel cache other = Some resolved.
Proof.
  intros Hin. rewrite !channels_omap.
  unfold Cache.upsert_channel, Cache.remove_channel, Cache.get_channel.
  simpl. split_and!.
  - apply list_omap_ext, Forall2_same_length_lookup_2; [done|].
    intros i x y Hx Hy. assert (x = y) as <- by congruence.
    rewrite lookup_insert. by repeat case_decide.
  - apply list_elem_of_omap. exists channel_id.
    by rewrite lookup_insert_eq.
  - clear Hin.
    induction (Category.channel_ids self) as [|x ids IH]; [done|].
    rewrite filter_cons. simpl.
    change (list_omap string loc) with (@omap list _ string loc).
    case_decide as Hx.
    + simpl. change (list_omap string loc) with (@omap list _ string loc).
      by rewrite lookup_delete_ne, IH.
    + subst x. by rewrite lookup_delete_eq.
  - intros resolved (other & Hother & Hresolved)%list_elem_of_omap.
    exists other. rewrite lookup_delete in Hresolved.
    case_decide; [done|]. by split_and!.
Qed.

(** ** The client *)

Section ClientFacts.

Variable handler : Type.
Variable handler_async_init : handler → handler * result unit.
Variable handler_close : handler → handler * result unit.

#[local] Abbreviation _async_init :=
  (Client._async_init handler handler_async_init).
#[local] Abbreviation _cleanup := (Client._cleanup handler handler_close).

(** When the handler raises, the flag stays as it was. *)
Lemma Client_raise_keeps_flag (self : Client.t handler) :
  (∀ self' e, _async_init self = (self', Raise e) →
     Client.initialized _ self' = false) ∧
  (∀ self' e, _cleanup self = (self', Raise e) →
     Client.initialized _ self' = true).
Proof.
  unfold Client._async_init, Client._cleanup.
  destruct self as [h [|]]; simpl; split; intros self' e.
  - done.
  - destruct (handler_close h) as [h' [[]|]]; by intros [= <- <-].
  - destruct (handler_async_init h) as [h' [[]|]]; by intros [= <- <-].
  - done.
Qed.

(** C10.  For every client: [_async_init] on an initialized client returns
    at once, the client and its handler as they were, and so does
    [_cleanup] on a client that is not initialized; when [_async_init]
    returns, the flag is true and a further [_async_init] changes
    nothing; when [_cleanup] returns, the flag is false and a further
    [_cleanup] changes nothing.  On a client that is not initialized
    [_async_init] is the handler's own initialisation, and on an
    initialized one [_cleanup] is the handler's [close]: each returns
    exactly when the handler's operation does, with the handler in the
    state that operation left. *)
Theorem Client_init_cleanup_guarded (self : Client.t handler) :
  (Client.initialized _ self = true → _async_init self = (self, Ok tt)) ∧
  (Client.initialized _ self = false → _cleanup self = (self, Ok tt)) ∧
  (∀ self', _async_init self = (self', Ok tt) →
     Client.initialized _ self' = true ∧
     _async_init self' = (self', Ok tt)) ∧
  (∀ self', _cleanup self = (self', Ok tt) →
     Client.initialized _ self' = false ∧
     _cleanup self' = (self', Ok tt)) ∧
  (Client.initialized _ self = false →
     (_async_init self).2 = (handler_async_init (Client.http_handler _ self)).2 ∧
     Client.http_handler _ (_async_init self).1
     = (handler_async_init (Client.http_handler _ self)).1) ∧
  (Client.initialized _ self = true →
     (_cleanup self).2 = (handler_close (Client.http_handler _ self)).2 ∧
     Client.http_handler _ (_cleanup self).1
     = (handler_close (Client.http_handler _ self)).1).
Proof.
  unfold Client._async_init, Client._cleanup.
  destruct self as [h [|]]; simpl; split_and!; try done.
  - by intros self' [= <-].
  - intros self'.
    destruct (handler_close h) as [h' [[]|]]; [|done]. by intros [= <-].
  - intros _. by destruct (handler_close h) as [h' [[]|]].
  - intros self'.
    destruct (handler_async_init h) as [h' [[]|]]; [|done].
    by intros [= <-].
  - by intros self' [= <-].
  - intros _. by destruct (handler_async_init h) as [h' [[]|]].
Qed.

End ClientFacts.

(** * The properties on concrete data *)

Section Concrete.

Import Samples.

#[local] Abbreviation Group_update :=
  (Group_update_from_data plain_optional_field true).

(** The group "Team" as constructed. *)
Example team_group_attributes :
  Group_update (VDict team) ∅
  = (list_to_map
       [("id", VStr "g1"); ("type", VStr "Group"); ("name", VStr "Team");
        ("owner_id", VStr "u1");
        ("recipient_ids", VList [VStr "u1"; VStr "u2"]);
        ("description", VStr "hello"); ("nsfw", VBool false);
        ("last_message_id", VNone); ("icon", VNone)],
     Ok tt).
Proof. reflexivity. Qed.

(** C1, as stated, fails.  On the group "Team" with recipients u1 and u2,
    the update that carries only the id and the new name raises
    [KeyError] for "channel_type" and the name is still "Team"; and the
    update that carries the four required keys and no recipients empties
    [recipient_ids]. *)
Lemma Group_update_absent_key_counterexample :
  team_group !! "recipient_ids" = Some (VList [VStr "u1"; VStr "u2"]) ∧
  (Group_update (VDict rename) team_group).2
    = Raise (KeyError "channel_type") ∧
  (Group_update (VDict rename) team_group).1 !! "name"
    ≠ Some (VStr "Team2") ∧
  rename_full !! "recipients" = None ∧
  (Group_update (VDict rename_full) team_group).1 !! "recipient_ids"
    ≠ team_group !! "recipient_ids".
Proof. vm_compute. split_and!; congruence. Qed.

Lemma Group_update_from_data_overwrites_witness :
  let after := Group_update (VDict rename_full) team_group in
  team_group !! "recipient_ids" = Some (VList [VStr "u1"; VStr "u2"]) ∧
  after.2 = Ok tt ∧
  after.1 !! "name" = Some (VStr "Team2") ∧
  after.1 !! "recipient_ids" = Some (VList []) ∧
  after.1 !! "description" = Some VNone.
Proof.
  destruct (Group_update_from_data_overwrites plain_optional_field true
              rename_full team_group
              (VStr "g1") (VStr "Group") (VStr "Team2") (VStr "u1") VNone)
    as (Hok & _ & _ & Hname & _ & Hrecipients & Hdescription & _);
    try reflexivity.
  split_and!;
    [reflexivity | exact Hok | exact Hname | exact Hrecipients
    | exact Hdescription].
Defined.

(** C2, as stated, fails.  On the group "Team", constructed with id "g1"
    and type "Group", the update whose payload says "g2" and
    "TextChannel" completes and leaves the id "g2" and the type
    "TextChannel". *)
Lemma update_changes_id_and_type_counterexample :
  let after :=
    update_from_data plain_optional_field true Group (VDict other_id)
      team_group in
  team_group !! "id" = Some (VStr "g1") ∧
  team_group !! "type" = Some (VStr "Group") ∧
  after.2 = Ok tt ∧
  after.1 !! "id" = Some (VStr "g2") ∧
  after.1 !! "type" = Some (VStr "TextChannel") ∧
  after.1 !! "id" ≠ team_group !! "id" ∧
  after.1 !! "type" ≠ team_group !! "type".
Proof. vm_compute. split_and!; congruence. Qed.

Lemma update_from_data_id_and_type_witness :
  let after :=
    update_from_data plain_optional_field true Group (VDict rename_full)
      team_group in
  after.1 !! "id" = team_group !! "id" ∧
  after.1 !! "type" = team_group !! "type".
Proof.
  exact (update_from_data_id_and_type plain_optional_field true Group
           (VDict rename_full) team_group).
Defined.

(** C8, as stated, fails.  On the group "Team" with description "hello",
    the update that carries the id and flags Description in the array of
    fields to clear raises [KeyError] for "channel_type", and the
    description is still "hello". *)
Lemma Group_update_remove_sentinel_counterexample :
  let after := Group_update (VDict clear_description) team_group in
  team_group !! "description" = Some (VStr "hello") ∧
  clear_description !! "remove" = Some (VList [VStr "Description"]) ∧
  after.2 = Raise (KeyError "channel_type") ∧
  after.1 !! "description" = Some (VStr "hello") ∧
  after.1 !! "description" ≠ Some VNone.
Proof. vm_compute. split_and!; congruence. Qed.

Lemma Group_update_from_data_clears_description_witness :
  team_group !! "description" = Some (VStr "hello") ∧
  clear_description_full !! "remove" = Some (VList [VStr "Description"]) ∧
  (Group_update (VDict clear_description_full) team_group).1
    !! "description" = Some VNone.
Proof.
  split_and!; [reflexivity | reflexivity |].
  apply Group_update_from_data_clears_description;
    solve [by eexists | reflexivity].
Defined.

Lemma update_from_data_idempotent_witness :
  let once := Group_update (VDict rename) team_group in
  once.2 = Raise (KeyError "channel_type") ∧
  Group_update (VDict rename) once.1 = once.
Proof.
  split; [reflexivity|].
  exact (proj1 (update_from_data_idempotent plain_optional_field true Group
                  (VDict rename) team_group 1%positive team_world)).
Defined.

(** The five tags of the Revolt API, and a sixth that the factory does not
    know. *)
Lemma channel_factory_total_witness :
  NoDup ["TextChannel"; "VoiceChannel"; "SavedMessages"; "DirectMessage";
         "Group"] ∧
  channel_factory "TextChannel" "VoiceChannel" "SavedMessages"
    "DirectMessage" "Group" (VStr "Group") = Group ∧
  channel_factory "TextChannel" "VoiceChannel" "SavedMessages"
    "DirectMessage" "Group" (VStr "Thread") = PrivateChannel.
Proof.
  assert (NoDup (known_tags "TextChannel" "VoiceChannel" "SavedMessages"
                   "DirectMessage" "Group")) as Hdistinct
    by compute_done.
  destruct (channel_factory_total plain_optional_field true _ _ _ _ _ Hdistinct)
    as (_ & _ & _ & _ & Hgroup & Hunknown).
  split_and!; [exact Hdistinct | exact Hgroup |].
  apply (Hunknown (VStr "Thread")).
  unfold known_tags. rewrite !fmap_cons, !not_elem_of_cons.
  split_and!; [discriminate.. | apply not_elem_of_nil].
Defined.

Lemma Category_channels_recomputed_witness :
  Category.channels abc a_and_c = [10%positive; 30%positive] ∧
  Category.channels abc (Cache.upsert_channel a_and_c "b" 20%positive)
    = [10%positive; 20%positive; 30%positive] ∧
  20%positive
    ∈ Category.channels abc (Cache.upsert_channel a_and_c "b" 20%positive) ∧
  Category.channels abc (Cache.remove_channel a_and_c "a") = [30%positive].
Proof.
  assert ("b" ∈ Category.channel_ids abc) as Hb
    by compute_done.
  destruct (Category_channels_recomputed abc a_and_c "b" 20%positive Hb)
    as (_ & Hupserted & _).
  split_and!; [reflexivity | reflexivity | exact Hupserted | reflexivity].
Defined.

Lemma edit_nothing_is_noop_witness :
  edit plain_optional_field true renaming_transport false 1%positive
    MISSING MISSING MISSING MISSING team_world
  = (team_world, Ok None).
Proof. by apply edit_nothing_is_noop. Defined.

Lemma Client_init_cleanup_guarded_witness :
  let _async_init := Client._async_init _ counting_async_init in
  let _cleanup := Client._cleanup _ counting_close in
  let fresh_client := Client.init _ (0, 0) in
  let entered := (_async_init fresh_client).1 in
  let left := (_cleanup entered).1 in
  _cleanup fresh_client = (fresh_client, Ok tt) ∧
  entered = {| Client.http_handler := (1, 0); Client.initialized := true |} ∧
  _async_init entered = (entered, Ok tt) ∧
  left = {| Client.http_handler := (1, 1); Client.initialized := false |} ∧
  _cleanup left = (left, Ok tt).
Proof.
  intros _async_init _cleanup fresh_client entered left.
  destruct (Client_init_cleanup_guarded _ counting_async_init
              counting_close fresh_client) as (_ & Hidle & _).
  destruct (Client_init_cleanup_guarded _ counting_async_init
              counting_close entered) as (Hagain & _).
  destruct (Client_init_cleanup_guarded _ counting_async_init
              counting_close left) as (_ & Hclosed & _).
  split_and!;
    [ exact (Hidle eq_refl) | reflexivity | exact (Hagain eq_refl)
    | reflexivity | exact (Hclosed eq_refl) ].
Defined.

End Concrete.

(** * Further properties *)

Set Warnings "-clear-no-such-hyp".

(** ** The table of assignments *)

Section TableFacts.

Variable handle_optional_field :
  value → string → value → value → result value.
Variable File_has_dict : bool.

#[local] Abbreviation update :=
  (update_from_data handle_optional_field File_has_dict).
#[local] Abbreviation read_from :=
  (read handle_optional_field File_has_dict).
#[local] Abbreviation assign_all :=
  (assign_fields handle_optional_field File_has_dict).

Lemma assign_fields_cons f fs data s :
  assign_all (f :: fs) data s
  = match read_from data f.2 with
    | Ok v => assign_all fs data (<[f.1 := v]> s)
    | Raise e => (s, Raise e)
    end.
Proof.
  unfold assign_fields. simpl. unfold mbind, M_bind, assign.
  by destruct (read_from data f.2).
Qed.

Lemma assign_fields_app before rest data s :
  assign_all (before ++ rest) data s
  = match assign_all before data s with
    | (s', Ok _) => assign_all rest data s'
    | (s', Raise e) => (s', Raise e)
    end.
Proof.
  revert s. induction before as [|f before IH]; intros s; [done|].
  rewrite <-app_comm_cons, !assign_fields_cons.
  by destruct (read_from data f.2).
Qed.

(** Each [_update_from_data] is the run of its table. *)
Lemma update_from_data_fields cls data s :
  update cls data s = assign_all (fields cls) data s.
Proof.
  destruct cls; simpl; unfold_update; unfold assign_fields; simpl;
    unfold mbind, M_bind, assign, eval;
    repeat match goal with
           | |- context [match ?e with Ok _ => _ | Raise _ => _ end] =>
               lazymatch e with
               | subscript _ _ => destruct e
               | dict_get _ _ _ => destruct e
               | Group_icon _ _ _ => destruct e
               end; simpl; try done
           end.
Qed.

Lemma assign_fields_untouched fs data s name :
  name ∉ fs.*1 → (assign_all fs data s).1 !! name = s !! name.
Proof.
  revert s. induction fs as [|f fs IH]; intros s Hname; [done|].
  rewrite fmap_cons, not_elem_of_cons in Hname. destruct Hname as [Hf Hfs].
  rewrite assign_fields_cons. destruct (read_from data f.2); [|done].
  by rewrite IH, lookup_insert_ne.
Qed.

Lemma assign_fields_Ok fs data s :
  (assign_all fs data s).2 = Ok tt
  ↔ Forall (λ f, ∃ v, read_from data f.2 = Ok v) fs.
Proof.
  revert s. induction fs as [|f fs IH]; intros s.
  - by split.
  - rewrite assign_fields_cons, Forall_cons.
    destruct (read_from data f.2) as [v|e].
    + rewrite IH. naive_solver.
    + simpl. split; [done|]. by intros [[v [=]] _].
Qed.

Lemma assign_fields_assigned fs data s name src v :
  NoDup fs.*1 →
  (assign_all fs data s).2 = Ok tt →
  (name, src) ∈ fs →
  read_from data src = Ok v →
  (assign_all fs data s).1 !! name = Some v.
Proof.
  revert s. induction fs as [|f fs IH]; intros s Hnodup Hok Hin Hread.
  - by apply elem_of_nil in Hin.
  - rewrite fmap_cons in Hnodup. apply NoDup_cons in Hnodup as [Hf Hnodup].
    rewrite assign_fields_cons in Hok |- *.
    apply elem_of_cons in Hin as [<- | Hin]; simpl in *.
    + rewrite Hread in Hok |- *.
      by rewrite assign_fields_untouched, lookup_insert_eq.
    + destruct (read_from data f.2); [|done]. by apply IH.
Qed.

Lemma assign_fields_dom fs data s :
  dom s ⊆ dom (assign_all fs data s).1
  ∧ dom (assign_all fs data s).1 ⊆ dom s ∪ list_to_set fs.*1
  ∧ ((assign_all fs data s).2 = Ok tt →
     dom (assign_all fs data s).1 = dom s ∪ list_to_set fs.*1).
Proof.
  revert s. induction fs as [|f fs IH]; intros s.
  - simpl. set_solver.
  - rewrite assign_fields_cons. destruct (read_from data f.2) as [v|e].
    + destruct (IH (<[f.1 := v]> s)) as (IH1 & IH2 & IH3).
      rewrite dom_insert_L in IH1, IH2, IH3. simpl.
      split_and!; [set_solver | set_solver |].
      intros Hok. rewrite (IH3 Hok). set_solver.
    + simpl. split_and!; [done | set_solver | done].
Qed.

Lemma fields_NoDup cls : NoDup (fields cls).*1.
Proof. destruct cls; compute_done. Qed.

Lemma fields_slots cls : (fields cls).*1 ≡ₚ slots cls.
Proof.
  destruct cls; simpl; try reflexivity.
  unfold PrivateChannel_fields. simpl.
  do 5 f_equiv.
  rewrite (Permutation_swap "icon"). f_equiv.
  rewrite (Permutation_swap "icon"). f_equiv.
Qed.


Lemma fields_slots_set cls :
  list_to_set (fields cls).*1 =@{gset string} list_to_set (slots cls).
Proof.
  apply set_eq. intros x. by rewrite !elem_of_list_to_set, fields_slots.
Qed.

Lemma read_dict_Ok (d : gmap string value) src :
  (∃ v, read_from (VDict d) src = Ok v)
  ↔ match src with
    | Required key => is_Some (d !! key)
    | Optional _ _ => True
    | OptionalFile key =>
        ∃ icon,
          Group_icon handle_optional_field File_has_dict
            (default VNone (d !! key)) = Ok icon
    end.
Proof.
  destruct src as [key|key dflt|key]; simpl.
  - destruct (d !! key); split; eauto; intros [? ?]; done.
  - destruct (d !! key); split; eauto.
  - by destruct (d !! key).
Qed.

(** X1.  For every channel class, [_update_from_data] with a dict payload
    completes exactly when the payload has every key that the class reads
    with [data[...]] and, for a [Group], an icon that is absent, false or
    accepted by [File]. *)
Theorem update_from_data_succeeds_iff cls (d attrs : gmap string value) :
  (update cls (VDict d) attrs).2 = Ok tt
  ↔ (∀ key, key ∈ required_keys cls → is_Some (d !! key))
    ∧ (cls = Group →
       ∃ icon,
         Group_icon handle_optional_field File_has_dict
           (default VNone (d !! "icon")) = Ok icon).
Proof.
  rewrite update_from_data_fields, assign_fields_Ok, Forall_forall.
  unfold required_keys. split.
  - intros Hall. split.
    + intros key (f & Hf & Hkey)%list_elem_of_omap.
      apply Hall, read_dict_Ok in Hf. by destruct (f.2); simplify_eq.
    + intros ->. apply (read_dict_Ok d (OptionalFile "icon")).
      apply (Hall ("icon", OptionalFile "icon")). simpl. set_solver.
  - intros [Hrequired Hicon] [name src] Hf. apply read_dict_Ok.
    destruct src as [key|key dflt|key]; simpl; [|done|].
    + apply Hrequired, list_elem_of_omap. by exists (name, Required key).
    + destruct cls; simpl in Hf; unfold PrivateChannel_fields,
        ServerChannel_fields in Hf; set_unfold; try naive_solver.
Qed.

(** X2.  When [_update_from_data] completes, every attribute of the table
    of the class holds the value read for it from the payload, the
    attributes that are no slot of the class are as they were, and the
    attributes set are those set before together with the slots. *)
Theorem update_from_data_assigns cls data (attrs : gmap string value) :
  (update cls data attrs).2 = Ok tt →
  (∀ name src v,
     (name, src) ∈ fields cls → read_from data src = Ok v →
     (update cls data attrs).1 !! name = Some v)
  ∧ (∀ other, other ∉ slots cls →
       (update cls data attrs).1 !! other = attrs !! other)
  ∧ dom (update cls data attrs).1 = dom attrs ∪ list_to_set (slots cls).
Proof.
  rewrite update_from_data_fields. intros Hok. split_and!.
  - intros name src v. apply assign_fields_assigned; [|done].
    apply fields_NoDup.
  - intros other Hother. apply assign_fields_untouched.
    by rewrite fields_slots.
  - destruct (assign_fields_dom (fields cls) data attrs) as (_ & _ & Hdom).
    by rewrite (Hdom Hok), fields_slots_set.
Qed.

(** X3.  [_update_from_data] is not atomic: when the reads for the first
    attributes of the table succeed and the next one raises, the update
    raises that exception, the first attributes hold the values read, and
    every other attribute, among them the one that failed and those after
    it, is as it was. *)
Theorem update_from_data_stops_at_first_failure cls data
    (attrs : gmap string value) before name src rest e :
  fields cls = before ++ (name, src) :: rest →
  Forall (λ f, ∃ v, read_from data f.2 = Ok v) before →
  read_from data src = Raise e →
  (update cls data attrs).2 = Raise e
  ∧ (∀ field source v,
       (field, source) ∈ before → read_from data source = Ok v →
       (update cls data attrs).1 !! field = Some v)
  ∧ (∀ other, other ∉ before.*1 →
       (update cls data attrs).1 !! other = attrs !! other).
Proof.
  intros Hfields Hbefore Hread.
  pose proof (fields_NoDup cls) as Hnodup.
  rewrite update_from_data_fields, Hfields, assign_fields_app.
  rewrite Hfields, fmap_app in Hnodup. apply NoDup_app in Hnodup as [Hnodup _].
  apply assign_fields_Ok with (s := attrs) in Hbefore.
  pose proof (assign_fields_assigned before data attrs) as Hassigned.
  pose proof (assign_fields_untouched before data attrs) as Huntouched.
  destruct (assign_all before data attrs) as [s' [[]|]]; [|done].
  rewrite assign_fields_cons. simpl in *. rewrite Hread. simpl.
  split_and!; [done| |done].
  intros field source v. by apply Hassigned.
Qed.

(** X4.  [_update_from_data] never unsets an attribute and never sets one
    that is no slot of the class, however it ends. *)
Theorem update_from_data_within_slots cls data (attrs : gmap string value) :
  dom attrs ⊆ dom (update cls data attrs).1
  ∧ dom (update cls data attrs).1 ⊆ dom attrs ∪ list_to_set (slots cls).
Proof.
  rewrite update_from_data_fields.
  destruct (assign_fields_dom (fields cls) data attrs) as (Hkeeps & Hin & _).
  split; [done|]. by rewrite <-fields_slots_set.
Qed.

Lemma assign_fields_ext fs data data' s :
  Forall (λ f, read_from data f.2 = read_from data' f.2) fs →
  assign_all fs data s = assign_all fs data' s.
Proof.
  revert s. induction fs as [|f fs IH]; intros s Hfs; [done|].
  apply Forall_cons in Hfs as [Hf Hfs].
  rewrite !assign_fields_cons, Hf. destruct (read_from data' f.2); [|done].
  by apply IH.
Qed.

(** X5.  A key that the class does not read does not matter: adding it to a
    payload, or changing what is under it, changes neither the attributes
    nor the outcome of [_update_from_data]. *)
Theorem update_from_data_ignores_other_keys cls
    (d attrs : gmap string value) key x :
  key ∉ source_key <$> (fields cls).*2 →
  update cls (VDict (<[key := x]> d)) attrs = update cls (VDict d) attrs.
Proof.
  intros Hkey. rewrite !update_from_data_fields.
  apply assign_fields_ext, Forall_forall. intros [name src] Hf.
  assert (source_key src ≠ key) as Hsrc.
  { intros <-. apply Hkey. apply list_elem_of_fmap. exists src.
    split; [done|]. apply list_elem_of_fmap. by exists (name, src). }
  destruct src; simpl in *; by rewrite lookup_insert_ne.
Qed.

(** X6.  A payload that is no dict, or a dict without "_id", is refused
    before anything is assigned: [TypeError] for the first, [KeyError] for
    the second, the attributes as they were. *)
Theorem update_from_data_refuses_without_id cls data
    (attrs : gmap string value) :
  (∀ d, data = VDict d → d !! "_id" = None) →
  update cls data attrs
  = (attrs,
     Raise match data with VDict _ => KeyError "_id" | _ => TypeError end).
Proof.
  intros Hid. apply update_from_data_no_id.
  destruct data; try done. simpl. by rewrite (Hid d).
Qed.

(** X7.  [Group._update_from_data] and the icon: an icon that is false (None,
    an empty dict, an empty string, zero) gives [self.icon = None] whatever
    [File] would do, and an icon that is true and no dict (an attachment id
    given as a string, say) makes the update raise [TypeError] once every
    other field has been assigned, the icon staying as it was. *)
Theorem Group_update_from_data_icon (d attrs : gmap string value)
    id tp name owner icon :
  d !! "_id" = Some id →
  d !! "channel_type" = Some tp →
  d !! "name" = Some name →
  d !! "owner" = Some owner →
  d !! "icon" = Some icon →
  let after :=
    Group_update_from_data handle_optional_field File_has_dict (VDict d)
      attrs in
  (truthy icon = false →
   after.2 = Ok tt ∧ after.1 !! "icon" = Some VNone)
  ∧ (truthy icon = true → (∀ d', icon ≠ VDict d') →
     after.2 = Raise TypeError ∧
     after.1 !! "icon" = attrs !! "icon" ∧
     after.1 !! "name" = Some name ∧
     after.1 !! "owner_id" = Some owner ∧
     after.1 !! "description" = Some (default VNone (d !! "description"))).
Proof.
  intros Hid Htp Hname Howner Hicon after. subst after. split.
  - intros Hfalse.
    assert (Group_icon handle_optional_field File_has_dict
              (default VNone (d !! "icon")) = Ok VNone) as Hnone.
    { rewrite Hicon. unfold Group_icon. simpl. by rewrite Hfalse. }
    rewrite (Group_update_from_data_full _ _ _ attrs _ _ _ _ _
               Hid Htp Hname Howner Hnone).
    simpl. split; [done|]. by rewrite lookup_insert_eq.
  - intros Htrue Hnodict.
    assert (Group_icon handle_optional_field File_has_dict icon
            = Raise TypeError) as Hraise.
    { unfold Group_icon, File_new, File_update_from_data.
      rewrite Htrue. unfold mbind at 1, M_bind at 1, assign at 1.
      destruct icon; try done. by destruct (Hnodict d0). }
    unfold_update.
    rewrite !dict_get_dict, (subscript_dict _ _ _ Hid),
      (subscript_dict _ _ _ Htp), (subscript_dict _ _ _ Hname),
      (subscript_dict _ _ _ Howner), Hicon.
    unfold mbind, M_bind, assign, eval. simpl. rewrite Hraise. simpl.
    split_and!; by simplify_map_eq.
Qed.

End TableFacts.

(** ** Files *)

Section FileFacts.

Variable handle_optional_field :
  value → string → value → value → result value.
Variable File_has_dict : bool.

(** X8.  [File(data, state)] on a dict that has "_id", "tag", "filename",
    "content_type", "size" and a "metadata" dict with a "type", when the two
    calls of [handle_optional_field] return and the instance takes the
    attribute [type]: the instance has the twelve attributes, the four ids
    that the dict leaves out being None. *)
Theorem File_new_builds (d m : gmap string value)
    id tag filename content_type size deleted reported tp :
  File_has_dict = true →
  d !! "_id" = Some id →
  d !! "tag" = Some tag →
  d !! "filename" = Some filename →
  d !! "content_type" = Some content_type →
  d !! "size" = Some size →
  handle_optional_field (VDict d) "deleted" (VBool false) VNone
    = Ok deleted →
  handle_optional_field (VDict d) "reported" (VBool false) VNone
    = Ok reported →
  d !! "metadata" = Some (VDict m) →
  m !! "type" = Some tp →
  File_new handle_optional_field File_has_dict (VDict d)
  = Ok (VFile
      (<["type" := tp]>
      (<["object_id" := default VNone (d !! "object_id")]>
      (<["server_id" := default VNone (d !! "server_id")]>
      (<["user_id" := default VNone (d !! "user_id")]>
      (<["message_id" := default VNone (d !! "message_id")]>
      (<["reported" := reported]>
      (<["deleted" := deleted]>
      (<["size" := size]>
      (<["content_type" := content_type]>
      (<["filename" := filename]>
      (<["tag" := tag]>
      (<["id" := id]> ∅))))))))))))).
Proof.
  intros Hdict Hid Htag Hfilename Hcontent Hsize Hdeleted Hreported
    Hmetadata Htp.
  unfold File_new, File_update_from_data, File_unroll_metadata,
    assign_unslotted.
  rewrite Hdict, Hdeleted, Hreported, !dict_get_dict,
    (subscript_dict _ _ _ Hid), (subscript_dict _ _ _ Htag),
    (subscript_dict _ _ _ Hfilename), (subscript_dict _ _ _ Hcontent),
    (subscript_dict _ _ _ Hsize), (subscript_dict _ _ _ Hmetadata).
  unfold mbind, M_bind, assign, eval.
  by rewrite (subscript_dict _ _ _ Htp).
Qed.

(** X9.  [File.__slots__] leaves out [type]: if [File] instances have no
    [__dict__], then [File(data, state)] raises for every payload, since
    either an earlier statement raises or [self.type = ...] does. *)
Theorem File_new_needs_dict data :
  File_has_dict = false →
  ∃ e, File_new handle_optional_field File_has_dict data = Raise e.
Proof.
  intros Hnodict.
  unfold File_new, File_update_from_data, File_unroll_metadata,
    assign_unslotted.
  rewrite Hnodict. unfold mbind, M_bind, assign, eval.
  repeat match goal with
         | |- context [match ?e with Ok _ => _ | Raise _ => _ end] =>
             lazymatch e with
             | subscript _ _ => destruct e
             | dict_get _ _ _ => destruct e
             | handle_optional_field _ _ _ _ => destruct e
             end; simpl; eauto
         end.
Qed.

(** X10.  [File(data, state)] raises [TypeError] on a payload that is no
    dict, and on a dict [KeyError] for the first of "_id", "tag",
    "filename", "content_type", "size" that it lacks. *)
Theorem File_new_refuses data :
  match data with
  | VDict d =>
      ∀ key,
        find (λ k, bool_decide (d !! k = None))
          ["_id"; "tag"; "filename"; "content_type"; "size"] = Some key →
        File_new handle_optional_field File_has_dict data
        = Raise (KeyError key)
  | _ => File_new handle_optional_field File_has_dict data = Raise TypeError
  end.
Proof.
  destruct data as [| | | | |d|]; try done.
  intros key. unfold File_new, File_update_from_data.
  unfold mbind, M_bind, assign, eval. simpl.
  repeat
    match goal with
    | |- context [bool_decide (d !! ?k = None)] =>
        destruct (d !! k) eqn:?;
          [ rewrite bool_decide_eq_false_2 by done; simpl
          | rewrite bool_decide_eq_true_2 by done; by intros [= <-] ]
    end.
  done.
Qed.

End FileFacts.

Lemma append_slash_inj t1 t2 i1 i2 :
  (∀ a b, t1 ≠ a +:+ "/" +:+ b) →
  (∀ a b, t2 ≠ a +:+ "/" +:+ b) →
  t1 +:+ "/" +:+ i1 = t2 +:+ "/" +:+ i2 →
  t1 = t2 ∧ i1 = i2.
Proof.
  revert t2. induction t1 as [|c t1 IH]; intros [|c' t2] H1 H2 Heq;
    cbn in Heq.
  - by simplify_eq.
  - injection Heq as <- Heq. by destruct (H2 "" t2).
  - injection Heq as -> Heq. by destruct (H1 "" t1).
  - injection Heq as -> Heq.
    destruct (IH t2) as [-> ->]; [| |done..].
    + intros a b ->. by apply (H1 (String c' a) b).
    + intros a b ->. by apply (H2 (String c' a) b).
Qed.

(** X11.  [File.url] tells files apart: for two files whose tag and id are
    strings, with no "/" in the tags, equal URLs mean the same tag and the
    same id. *)
Theorem File_url_inj format_value (self1 self2 : gmap string value)
    tag1 id1 tag2 id2 :
  (∀ s, format_value (VStr s) = s) →
  self1 !! "tag" = Some (VStr tag1) → self1 !! "id" = Some (VStr id1) →
  self2 !! "tag" = Some (VStr tag2) → self2 !! "id" = Some (VStr id2) →
  (∀ a b, tag1 ≠ a +:+ "/" +:+ b) →
  (∀ a b, tag2 ≠ a +:+ "/" +:+ b) →
  File_url format_value self1 = File_url format_value self2 →
  File_url format_value self1
    = Ok ("https://autumn.revolt.chat/" +:+ tag1 +:+ "/" +:+ id1)
  ∧ tag1 = tag2 ∧ id1 = id2.
Proof.
  intros Hformat Htag1 Hid1 Htag2 Hid2 Hslash1 Hslash2.
  unfold File_url. rewrite Htag1, Hid1, Htag2, Hid2, !Hformat.
  intros [= Heq]. split; [done|]. by apply append_slash_inj.
Qed.

(** ** The channel factory, read backwards *)

(** X12.  [channel_factory] gives a variant only for the tag of that
    variant, [PrivateChannel] only for a value that is none of the five
    tags, and never the base class [ServerChannel]; this needs no
    assumption on the tags. *)
Theorem channel_factory_sound
    TEXT_CHANNEL VOICE_CHANNEL SAVED_MESSAGES DIRECT_MESSAGE GROUP tp :
  match
    channel_factory TEXT_CHANNEL VOICE_CHANNEL SAVED_MESSAGES
      DIRECT_MESSAGE GROUP tp
  with
  | TextChannel => tp = VStr TEXT_CHANNEL
  | VoiceChannel => tp = VStr VOICE_CHANNEL
  | SavedMessages => tp = VStr SAVED_MESSAGES
  | DirectMessage => tp = VStr DIRECT_MESSAGE
  | Group => tp = VStr GROUP
  | PrivateChannel =>
      tp ∉ VStr <$>
        known_tags TEXT_CHANNEL VOICE_CHANNEL SAVED_MESSAGES
          DIRECT_MESSAGE GROUP
  | ServerChannel => False
  end.
Proof.
  unfold channel_factory, known_tags.
  repeat match goal with
         | |- context [tag_eq tp ?c] =>
             destruct (tag_eq tp c) eqn:?; [by apply tag_eq_true|]
         end.
  rewrite !fmap_cons, !not_elem_of_cons.
  split_and!; try (by apply tag_eq_false); apply not_elem_of_nil.
Qed.

(** ** The store under sequences of calls *)

Section CallFacts.

Variable handle_optional_field :
  value → string → value → value → result value.
Variable File_has_dict : bool.
Variable transport : list request → request → result value.
Variable MISSING_bool : bool.

#[local] Abbreviation run :=
  (run_call handle_optional_field File_has_dict transport MISSING_bool).
#[local] Abbreviation run_all :=
  (run_calls handle_optional_field File_has_dict transport MISSING_bool).

Lemma proceeds_refl w : proceeds w w.
Proof. split_and!; [done|by eauto|done]. Qed.

Lemma proceeds_trans w1 w2 w3 :
  proceeds w1 w2 → proceeds w2 w3 → proceeds w1 w3.
Proof.
  intros (Hc1 & Hk1 & Hs1) (Hc2 & Hk2 & Hs2). split_and!.
  - intros Hcomplete. by apply Hc2, Hc1.
  - intros l o Hl. destruct (Hk1 l o Hl) as (o' & Hl' & <-). by apply Hk2.
  - by etrans.
Qed.

Lemma constructed_complete cls data attrs :
  update_from_data handle_optional_field File_has_dict cls data ∅
  = (attrs, Ok tt) →
  complete (Object cls attrs).
Proof.
  intros Hupdate. unfold complete. simpl.
  destruct (update_from_data_assigns handle_optional_field File_has_dict
              cls data ∅) as (_ & _ & Hdom).
  - by rewrite Hupdate.
  - rewrite Hupdate in Hdom. simpl in Hdom. rewrite Hdom. set_solver.
Qed.

Lemma proceeds_allocate w w' cls data attrs :
  update_from_data handle_optional_field File_has_dict cls data ∅
  = (attrs, Ok tt) →
  heap w' = <[fresh (dom (heap w)) := Object cls attrs]> (heap w) →
  sent w `prefix_of` sent w' →
  proceeds w w'.
Proof.
  intros Hupdate Hheap Hsent.
  assert (heap w !! fresh (dom (heap w)) = None) as Hfresh
    by apply not_elem_of_dom, is_fresh.
  split_and!; [| |done].
  - intros Hcomplete l o. rewrite Hheap, lookup_insert.
    case_decide; [|by apply Hcomplete].
    intros [= <-]. by eapply constructed_complete.
  - intros l o Hl. exists o. split; [|done].
    rewrite Hheap, lookup_insert_ne; [done|]. by intros <-; simplify_eq.
Qed.

Lemma edit_json_sent name description icon nsfw w :
  sent w `prefix_of`
    sent (edit_json transport MISSING_bool name description icon nsfw w).1.
Proof.
  unfold edit_json.
  destruct icon as [|[[attachment_id|file]|]]; try done.
  simpl. unfold mbind, W_bind, eval_w. simpl.
  destruct (transport _ _) as [response|]; simpl;
    [destruct (subscript response "id")|]; simpl; by apply prefix_app_r.
Qed.

Lemma run_call_proceeds c w : proceeds w (run c w).
Proof.
  destruct c as [cls data|self data|self name description icon nsfw];
    simpl.
  - unfold construct.
    destruct (update_from_data _ _ cls data ∅) as [attrs [[]|]] eqn:Hupdate;
      [|apply proceeds_refl].
    by eapply proceeds_allocate.
  - unfold call_update_from_data.
    destruct (heap w !! self) as [o|] eqn:Hself; [|apply proceeds_refl].
    pose proof (update_from_data_within_slots handle_optional_field
                  File_has_dict (obj_class o) data (obj_attrs o))
      as [Hkeeps Hin].
    destruct (update_from_data _ _ _ _ _) as [attrs r]. simpl in *.
    split_and!; [| |done].
    + intros Hcomplete l o'. simpl. rewrite lookup_insert.
      case_decide; [|by apply Hcomplete].
      intros [= <-]. specialize (Hcomplete _ _ Hself).
      unfold complete in *. simpl. set_solver.
    + intros l o' Hl. simpl. rewrite lookup_insert.
      case_decide; [|by eauto].
      simplify_eq. by eauto.
  - pose proof (edit_json_heap transport MISSING_bool name description
                  icon nsfw w) as Hheap.
    pose proof (edit_json_sent name description icon nsfw w) as Hsent.
    unfold edit, mbind, W_bind.
    destruct (edit_json _ _ _ _ _ _ w) as [w1 [json|e]]; simpl in *.
    2:{ split_and!; [by rewrite Hheap|by rewrite Hheap; eauto|done]. }
    assert (proceeds w w1) as Hw1.
    { split_and!; [by rewrite Hheap|by rewrite Hheap; eauto|done]. }
    case_bool_decide; [done|].
    unfold getattr, class_of, http_edit_channel, http_request, construct.
    cbn beta.
    destruct (heap w1 !! self) as [o|]; [|done].
    destruct (obj_attrs o !! "id") as [channel_id|]; [|done].
    simpl.
    destruct (transport _ _) as [response|]; simpl.
    2:{ eapply proceeds_trans; [done|].
        split_and!; [done|by eauto|by apply prefix_app_r]. }
    destruct (heap w1 !! self) as [o1|]; simpl.
    2:{ eapply proceeds_trans; [done|].
        split_and!; [done|by eauto|by apply prefix_app_r]. }
    destruct (update_from_data _ _ _ _ _) as [attrs [[]|]] eqn:Hupdate;
      simpl.
    2:{ eapply proceeds_trans; [done|].
        split_and!; [done|by eauto|by apply prefix_app_r]. }
    eapply proceeds_trans; [done|].
    eapply proceeds_allocate; [done|done|]. simpl. by apply prefix_app_r.
Qed.

(** X13.  Whatever calls are made on the store, constructions, updates and
    edits, in any order and however each ends: if every instance had all
    the slots of its class set, every instance still has, the new ones
    too, so that no declared attribute of a channel is ever unset; every
    instance is still there with the class it had; and nothing is taken
    back from the requests sent. *)
Theorem run_calls_invariants cs w :
  (∀ l o, heap w !! l = Some o → complete o) →
  (∀ l o, heap (run_all cs w) !! l = Some o → complete o)
  ∧ (∀ l o, heap w !! l = Some o →
       ∃ o', heap (run_all cs w) !! l = Some o' ∧
             obj_class o' = obj_class o)
  ∧ sent w `prefix_of` sent (run_all cs w).
Proof.
  intros Hcomplete.
  assert (proceeds w (run_all cs w)) as (Hc & Hk & Hs).
  { clear Hcomplete. revert w.
    induction cs as [|c cs IH]; intros w; [apply proceeds_refl|].
    simpl. eapply proceeds_trans; [apply run_call_proceeds|apply IH]. }
  split_and!; [by apply Hc | exact Hk | exact Hs].
Qed.

(** X14.  [edit] tests the name with [if name:] and the flag with
    [is not MISSING]: an empty name is dropped, so that [edit(name="")]
    sends nothing and returns None, and with [nsfw] given the request
    carries the flag alone, be it False. *)
Theorem edit_drops_empty_name self o channel_id flag w :
  heap w !! self = Some o →
  obj_attrs o !! "id" = Some channel_id →
  edit handle_optional_field File_has_dict transport MISSING_bool self
    (Given "") MISSING MISSING MISSING w = (w, Ok None)
  ∧ sent (edit handle_optional_field File_has_dict transport MISSING_bool
            self (Given "") MISSING MISSING (Given flag) w).1
    = sent w ++ [EditChannel channel_id {[ "nsfw" := Given (VBool flag) ]}].
Proof.
  intros Hself Hid. split; [done|].
  unfold edit, edit_json, mbind, W_bind. simpl.
  rewrite bool_decide_eq_false_2 by apply insert_non_empty.
  unfold getattr, class_of, http_edit_channel, http_request, construct.
  cbn beta. rewrite Hself, Hid. simpl. rewrite Hself.
  destruct (transport _ _); [|done]. simpl.
  by destruct (update_from_data _ _ _ _ _) as [? [[]|]].
Qed.

(** X15.  [edit(name=...)] with a name that is not empty sends one request,
    the channel edit with the name, and no other.  When the transport
    raises, or when it answers and the constructor raises on the answer (a
    missing key, say), [edit] raises that exception, the request stays sent
    and the store is as it was. *)
Theorem edit_name_failures self o channel_id name w :
  heap w !! self = Some o →
  obj_attrs o !! "id" = Some channel_id →
  name ≠ "" →
  let request := EditChannel channel_id {[ "name" := Given (VStr name) ]} in
  let after :=
    edit handle_optional_field File_has_dict transport MISSING_bool self
      (Given name) MISSING MISSING MISSING w in
  sent (after.1) = sent w ++ [request]
  ∧ (∀ e, transport (sent w) request = Raise e →
       after.2 = Raise e ∧ heap (after.1) = heap w)
  ∧ (∀ response e,
       transport (sent w) request = Ok response →
       (update_from_data handle_optional_field File_has_dict (obj_class o)
          response ∅).2 = Raise e →
       after.2 = Raise e ∧ heap (after.1) = heap w).
Proof.
  intros Hself Hid Hname request after. subst request after.
  unfold edit, edit_json, mbind, W_bind. simpl.
  rewrite (proj2 (String.eqb_neq name "") Hname). simpl.
  rewrite bool_decide_eq_false_2 by apply insert_non_empty.
  unfold getattr, class_of, http_edit_channel, http_request, construct.
  cbn beta. rewrite Hself, Hid. simpl. rewrite Hself.
  change (<["name" := Given (VStr name)]> ∅)
    with ({[ "name" := Given (VStr name) ]} : body).
  destruct (transport _ _) as [response|e']; simpl.
  - destruct (update_from_data _ _ _ _ _) as [attrs [[]|e']] eqn:Hupdate;
      simpl; split_and!; try done;
      intros response' e Hresponse Hraise; simplify_eq;
      rewrite Hupdate in Hraise; by simplify_eq/=.
  - split_and!; try done. by intros e [= <-].
Qed.

End CallFacts.

(** ** Updating in place against editing *)

Section ReferenceFacts.

Variable handle_optional_field :
  value → string → value → value → result value.
Variable File_has_dict : bool.
Variable transport : list request → request → result value.
Variable MISSING_bool : bool.

(** A channel edit that the transport answers with a payload that the
    constructor accepts makes [edit] return a new instance. *)
Lemma edit_returns_instance self o name description icon nsfw w
    w1 json channel_id response attrs :
  heap w !! self = Some o →
  edit_json transport MISSING_bool name description icon nsfw w
  = (w1, Ok json) →
  json ≠ ∅ →
  obj_attrs o !! "id" = Some channel_id →
  transport (sent w1) (EditChannel channel_id json) = Ok response →
  update_from_data handle_optional_field File_has_dict (obj_class o)
    response ∅ = (attrs, Ok tt) →
  edit handle_optional_field File_has_dict transport MISSING_bool self
    name description icon nsfw w
  = ({| heap :=
          <[fresh (dom (heap w)) := Object (obj_class o) attrs]> (heap w);
        sent := sent w1 ++ [EditChannel channel_id json] |},
     Ok (Some (fresh (dom (heap w))))).
Proof.
  intros Hself Hjson Hnonempty Hid Htransport Hconstruct.
  pose proof (edit_json_heap transport MISSING_bool name description icon
                nsfw w) as Hheap.
  unfold edit, mbind, W_bind. rewrite Hjson in Hheap |- *. simpl in Hheap.
  rewrite bool_decide_eq_false_2 by done.
  unfold getattr, class_of, http_edit_channel, http_request, construct.
  cbn beta. rewrite Hheap, Hself, Hid. simpl.
  rewrite Htransport, ?Hheap, Hself. simpl.
  by rewrite Hconstruct, ?Hheap.
Qed.

(** C7.  For every instance [o] behind a reference [self].
    Updating: [_update_from_data] through the reference returns nothing but
    its outcome and changes the instance where it is; no instance is added
    or removed, no other instance changes, nothing is sent, and when the
    update completes, whoever reads an attribute through [self] finds the
    value that the method read for it from the payload.
    Editing: when the request body is not empty, the transport answers the
    channel edit with a payload and the constructor of the class of [self]
    accepts that payload, [edit] returns a new instance, at a reference
    that did not exist, of the class of [self], with the attributes built
    from the answer, while the instance behind [self] is as it was; and
    whenever [edit] returns an instance it came about in that way.  When
    [edit] ends otherwise the store is unchanged. *)
Theorem update_in_place_edit_returns_new_instance self o data
    name description icon nsfw w :
  heap w !! self = Some o →
  (let after :=
     call_update_from_data handle_optional_field File_has_dict self data w in
   let updated :=
     update_from_data handle_optional_field File_has_dict (obj_class o) data
       (obj_attrs o) in
   after.2 = updated.2 ∧
   heap (after.1) !! self = Some (Object (obj_class o) updated.1) ∧
   dom (heap (after.1)) = dom (heap w) ∧
   sent (after.1) = sent w ∧
   (∀ other, other ≠ self → heap (after.1) !! other = heap w !! other) ∧
   (after.2 = Ok tt →
    ∀ attribute src v,
      (attribute, src) ∈ fields (obj_class o) →
      read handle_optional_field File_has_dict data src = Ok v →
      (obj_attrs <$> heap (after.1) !! self) ≫= (.!! attribute) = Some v))
  ∧ (∀ w1 json channel_id response attrs,
       edit_json transport MISSING_bool name description icon nsfw w
       = (w1, Ok json) →
       json ≠ ∅ →
       obj_attrs o !! "id" = Some channel_id →
       transport (sent w1) (EditChannel channel_id json) = Ok response →
       update_from_data handle_optional_field File_has_dict (obj_class o)
         response ∅ = (attrs, Ok tt) →
       let new := fresh (dom (heap w)) in
       let after :=
         edit handle_optional_field File_has_dict transport MISSING_bool
           self name description icon nsfw w in
       after.2 = Ok (Some new) ∧
       (new ∉ dom (heap w)) ∧
       heap (after.1) !! new = Some (Object (obj_class o) attrs) ∧
       heap (after.1) !! self = Some o ∧
       (∀ other, other ≠ new → heap (after.1) !! other = heap w !! other) ∧
       sent (after.1) = sent w1 ++ [EditChannel channel_id json])
  ∧ match
      edit handle_optional_field File_has_dict transport MISSING_bool self
        name description icon nsfw w
    with
    | (w', Ok (Some new)) =>
        (new ∉ dom (heap w)) ∧
        heap w' !! self = Some o ∧
        ∃ prior channel_id json response attrs,
          sent w' = prior ++ [EditChannel channel_id json] ∧
          transport prior (EditChannel channel_id json) = Ok response ∧
          update_from_data handle_optional_field File_has_dict (obj_class o)
            response ∅ = (attrs, Ok tt) ∧
          heap w' = <[new := Object (obj_class o) attrs]> (heap w)
    | (w', _) => heap w' = heap w
    end.
Proof.
  intros Hself. split_and!.
  - destruct (call_update_from_data_in_place handle_optional_field
                File_has_dict self o data w Hself)
      as (Hresult & Hlookup & Hdom & Hsent & Hother).
    split_and!; try done.
    intros Hok attribute src v Hfield Hread.
    rewrite Hlookup. simpl. rewrite Hresult in Hok.
    rewrite update_from_data_fields in Hok |- *.
    apply assign_fields_assigned with (src := src); try done.
    apply fields_NoDup.
  - intros w1 json channel_id response attrs Hjson Hnonempty Hid
      Htransport Hconstruct new after. subst new after.
    rewrite (edit_returns_instance _ _ _ _ _ _ _ _ _ _ _ _
               Hself Hjson Hnonempty Hid Htransport Hconstruct).
    simpl.
    assert (fresh (dom (heap w)) ∉ dom (heap w)) as Hfresh by apply is_fresh.
    split_and!; try done.
    + by rewrite lookup_insert_eq.
    + rewrite lookup_insert_ne; [done|].
      intros <-. apply Hfresh. by eapply elem_of_dom_2.
    + intros other Hother. by rewrite lookup_insert_ne.
  - by apply edit_outcome.
Qed.

End ReferenceFacts.

(** ** [async with client] *)

Section ClientContextFacts.

Variable handler : Type.
Variable handler_async_init : handler → handler * result unit.
Variable handler_close : handler → handler * result unit.

#[local] Abbreviation enter :=
  (ClientContext.__aenter__ handler handler_async_init).
#[local] Abbreviation with_client :=
  (ClientContext.async_with handler handler_async_init handler_close).

Lemma cleanup_closes (self : Client.t handler) :
  (∀ h, (handler_close h).2 = Ok tt) →
  (Client._cleanup handler handler_close self).2 = Ok tt
  ∧ Client.initialized _ (Client._cleanup handler handler_close self).1
    = false.
Proof.
  intros Hclose. unfold Client._cleanup.
  destruct self as [h [|]]; simpl; [|done].
  specialize (Hclose h). by destruct (handler_close h) as [h' [[]|]].
Qed.

Lemma async_init_returns_initialized (self entered : Client.t handler) :
  Client._async_init handler handler_async_init self = (entered, Ok tt) →
  Client.initialized _ entered = true.
Proof.
  unfold Client._async_init. destruct self as [h [|]]; simpl.
  - by intros [= <-].
  - destruct (handler_async_init h) as [h' [[]|]]; [|done]. by intros [= <-].
Qed.

(** X16.  With a handler whose [close] does not raise: whenever
    [__aenter__] returns, [async with client] ends as its block did and
    leaves the client not initialized, also when the client was
    initialized before the statement.  A client is thus closed by the
    first [async with] on it that ends, not by the outermost one. *)
Theorem async_with_closes {A} (self : Client.t handler)
    (block : Client.t handler → Client.t handler * result A) :
  (∀ h, (handler_close h).2 = Ok tt) →
  (enter self).2 = Ok tt →
  (with_client self block).2 = (block (enter self).1).2
  ∧ Client.initialized _ (with_client self block).1 = false.
Proof.
  intros Hclose Henter. unfold ClientContext.async_with.
  destruct (enter self) as [entered [[]|]]; [|done]. simpl.
  destruct (block entered) as [after r]. unfold ClientContext.__aexit__.
  destruct (cleanup_closes after Hclose) as [Hok Hflag].
  by destruct (Client._cleanup _ _ after) as [closed [[]|]].
Qed.

(** X17.  With a handler whose [close] does not raise, an [async with] on a
    client inside an [async with] on the same client changes nothing: the
    two nested statements end as the single one and leave the same client,
    the handler initialised and closed as by the single one. *)
Theorem async_with_nested {A} (self : Client.t handler)
    (block : Client.t handler → Client.t handler * result A) :
  (∀ h, (handler_close h).2 = Ok tt) →
  with_client self (λ entered, with_client entered block)
  = with_client self block.
Proof.
  intros Hclose. unfold ClientContext.async_with at 1 3.
  destruct (enter self) as [entered [[]|]] eqn:Henter; [|done].
  assert (Client.initialized _ entered = true) as Hentered.
  { by eapply async_init_returns_initialized. }
  unfold ClientContext.async_with, ClientContext.__aenter__,
    ClientContext.__aexit__.
  unfold Client._async_init at 1. rewrite Hentered.
  destruct (block entered) as [after r].
  destruct (cleanup_closes after Hclose) as [Hok Hflag].
  destruct (Client._cleanup _ _ after) as [closed [[]|]]; [|done].
  simpl in *. unfold Client._cleanup. by rewrite Hflag.
Qed.

End ClientContextFacts.

(** ** Categories *)

(** X18.  [channels()] depends on the cache only at the ids of
    [channel_ids]: upserting or removing a channel under any other id leaves
    the result as it was. *)
Theorem Category_channels_frame self (cache : gmap string loc)
    channel_id channel :
  channel_id ∉ Category.channel_ids self →
  Category.channels self (Cache.upsert_channel cache channel_id channel)
  = Category.channels self cache
  ∧ Category.channels self (Cache.remove_channel cache channel_id)
    = Category.channels self cache.
Proof.
  intros Hout. rewrite !channels_omap.
  unfold Cache.upsert_channel, Cache.remove_channel, Cache.get_channel.
  split; apply list_omap_ext, Forall2_same_length_lookup_2; try done;
    intros i x y Hx Hy; assert (x = y) as <- by congruence;
    assert (channel_id ≠ x)
      by (intros ->; by apply list_elem_of_lookup_2 in Hx);
    by rewrite ?lookup_insert_ne, ?lookup_delete_ne.
Qed.

(** X19.  [channels()] returns as many channels as the category lists ids
    exactly when the cache resolves every one of the ids. *)
Theorem Category_channels_all_iff self (cache : gmap string loc) :
  length (Category.channels self cache)
  = length (Category.channel_ids self)
  ↔ ∀ channel_id,
      channel_id ∈ Category.channel_ids self →
      is_Some (Cache.get_channel cache channel_id).
Proof.
  rewrite channels_omap. unfold Cache.get_channel.
  induction (Category.channel_ids self) as [|x ids IH]; simpl.
  - split; [|done]. by intros _ ? ?%elem_of_nil.
  - change (list_omap string loc) with (@omap list _ string loc).
    pose proof (omap_length_le (λ i, cache !! i) ids) as Hle.
    destruct (cache !! x) as [channel|] eqn:Hx; simpl.
    + split.
      * intros [= Hlength] channel_id [->|Hin]%elem_of_cons; [by eauto|].
        by apply IH.
      * intros Hall. f_equal. apply IH. intros channel_id Hin.
        apply Hall. by right.
    + split; [lia|]. intros Hall.
      destruct (Hall x) as [? ?]; [by left|congruence].
Qed.

Lemma mapM_as_str (ids : list string) :
  mapM as_str (VStr <$> ids) = Some ids.
Proof. apply mapM_Some. by induction ids; constructor. Qed.

(** X20.  A category from a payload: [Category._update_from_data] reads the
    id under "id" and the title under "title", and an absent "channels"
    gives an empty [channel_ids], so that [channels()] of that category is
    empty for every cache; a payload with the id under "_id" alone is
    refused with [KeyError] for "id". *)
Theorem Category_update_from_data_builds (d : gmap string value)
    id title (channels : option (list string)) :
  d !! "title" = Some (VStr title) →
  d !! "channels" = (λ ids, VList (VStr <$> ids)) <$> channels →
  (d !! "id" = Some (VStr id) →
   (Category_update_from_data (VDict d) ∅).2 = Ok tt ∧
   Category_of_attrs (Category_update_from_data (VDict d) ∅).1
   = Some {| Category.id := id; Category.title := title;
             Category.channel_ids := default [] channels |})
  ∧ (d !! "id" = None →
     Category_update_from_data (VDict d) ∅ = (∅, Raise (KeyError "id"))).
Proof.
  intros Htitle Hchannels. unfold Category_update_from_data. split.
  - intros Hid.
    rewrite dict_get_dict, (subscript_dict _ _ _ Hid),
      (subscript_dict _ _ _ Htitle), Hchannels.
    unfold mbind, M_bind, assign. simpl. split; [done|].
    unfold Category_of_attrs. simplify_map_eq/=.
    destruct channels as [ids|]; simpl; [|done].
    by rewrite mapM_as_str.
  - intros Hid. by rewrite (subscript_dict_None _ _ Hid).
Qed.

(** * The further properties on concrete data *)

Section MoreConcrete.

Import Samples MoreSamples.

Lemma update_from_data_assigns_witness :
  let after :=
    update_from_data plain_optional_field true DirectMessage (VDict dm) ∅ in
  after.2 = Ok tt ∧
  after.1 !! "recipient_ids" = Some (VList [VStr "u1"; VStr "u2"]) ∧
  after.1 !! "active" = Some (VBool false) ∧
  dom (after.1) = list_to_set (slots DirectMessage).
Proof.
  intros after.
  assert (after.2 = Ok tt) as Hok by reflexivity.
  destruct (update_from_data_assigns plain_optional_field true
              DirectMessage (VDict dm) ∅ Hok) as (Hassigns & _ & Hdom).
  split_and!; [exact Hok | | |].
  - apply (Hassigns _ (Optional "recipients" (VList []))); [|reflexivity].
    simpl. set_solver.
  - apply (Hassigns _ (Optional "active" (VBool false))); [|reflexivity].
    simpl. set_solver.
  - fold after in Hdom. rewrite Hdom. set_solver.
Defined.

Lemma update_from_data_stops_at_first_failure_witness :
  let after :=
    update_from_data plain_optional_field true TextChannel (VDict moved)
      general_channel in
  general_channel !! "id" = Some (VStr "c1") ∧
  after.2 = Raise (KeyError "server") ∧
  after.1 !! "id" = Some (VStr "c2") ∧
  after.1 !! "type" = Some (VStr "VoiceChannel") ∧
  after.1 !! "server_id" = Some (VStr "s1") ∧
  after.1 !! "name" = Some (VStr "general").
Proof.
  intros after.
  destruct (update_from_data_stops_at_first_failure plain_optional_field
              true TextChannel (VDict moved) general_channel
              [("id", Required "_id"); ("type", Required "channel_type")]
              "server_id" (Required "server")
              [("name", Required "name");
               ("description", Optional "description" VNone);
               ("nsfw", Optional "nsfw" (VBool false));
               ("last_message_id", Optional "last_message_id" VNone)]
              (KeyError "server"))
    as (Hraise & Hbefore & Hother); [reflexivity | | reflexivity |].
  - repeat constructor; by eexists.
  - split_and!; [reflexivity | exact Hraise | | | |].
    + apply (Hbefore _ (Required "_id")); [set_solver|reflexivity].
    + apply (Hbefore _ (Required "channel_type")); [set_solver|reflexivity].
    + rewrite Hother; [reflexivity|set_solver].
    + rewrite Hother; [reflexivity|set_solver].
Defined.

Lemma update_from_data_ignores_other_keys_witness :
  update_from_data plain_optional_field true TextChannel
    (VDict (<["default_permissions" := VInt 7]> general)) ∅
  = update_from_data plain_optional_field true TextChannel (VDict general) ∅.
Proof.
  apply update_from_data_ignores_other_keys. simpl.
  rewrite !not_elem_of_cons. split_and!; [discriminate..|apply not_elem_of_nil].
Defined.

Lemma update_from_data_refuses_without_id_witness :
  update_from_data plain_optional_field true Group VNone team_group
  = (team_group, Raise TypeError).
Proof. by apply update_from_data_refuses_without_id. Defined.

Lemma Group_update_from_data_icon_witness :
  let after :=
    Group_update_from_data plain_optional_field true
      (VDict team_with_icon_id) ∅ in
  after.2 = Raise TypeError ∧
  after.1 !! "icon" = None ∧
  after.1 !! "name" = Some (VStr "Team").
Proof.
  destruct (Group_update_from_data_icon plain_optional_field true
              team_with_icon_id ∅ (VStr "g1") (VStr "Group") (VStr "Team")
              (VStr "u1") (VStr "f1")) as [_ Hraise]; try reflexivity.
  destruct Hraise as (Hraise & Hicon & Hname & _); [reflexivity|done|].
  split_and!; [exact Hraise | exact Hicon | exact Hname].
Defined.

Lemma File_new_builds_witness :
  ∃ attrs,
    File_new plain_optional_field true (VDict logo) = Ok (VFile attrs) ∧
    attrs !! "type" = Some (VStr "Image") ∧
    attrs !! "deleted" = Some (VBool false) ∧
    attrs !! "message_id" = Some VNone ∧
    size attrs = 12.
Proof.
  eexists. split.
  - eapply (File_new_builds plain_optional_field true logo
              {[ "type" := VStr "Image" ]}); reflexivity.
  - split_and!; reflexivity.
Defined.

Lemma File_new_needs_dict_witness :
  ∃ e, File_new plain_optional_field false (VDict logo) = Raise e.
Proof. by apply File_new_needs_dict. Defined.

Lemma File_url_inj_witness :
  let file : gmap string value :=
    {[ "tag" := VStr "icons"; "id" := VStr "f1" ]} in
  File_url format_str file = Ok "https://autumn.revolt.chat/icons/f1".
Proof.
  intros file.
  destruct (File_url_inj format_str file file "icons" "f1" "icons" "f1")
    as (Hurl & _); try done.
  - intros a b Heq.
    repeat (destruct a as [|? a]; simplify_eq/=).
  - intros a b Heq.
    repeat (destruct a as [|? a]; simplify_eq/=).
Defined.

Lemma team_world_complete l o :
  heap team_world !! l = Some o → complete o.
Proof.
  unfold team_world. simpl.
  intros [<- <-]%lookup_singleton_Some.
  by apply (constructed_complete plain_optional_field true Group
              (VDict team)).
Qed.

Lemma run_calls_invariants_witness :
  let w' :=
    run_calls plain_optional_field true renaming_transport false
      [Update 1%positive (VDict rename);
       Edit 1%positive (Given "Team2") MISSING MISSING MISSING;
       Construct PrivateChannel (VDict rename)]
      team_world in
  (∀ l o, heap w' !! l = Some o → complete o) ∧
  (obj_class <$> heap w' !! 1%positive) = Some Group ∧
  (obj_class <$> heap w' !! 2%positive) = Some Group ∧
  size (heap w') = 2 ∧
  length (sent w') = 1.
Proof.
  intros w'.
  destruct (run_calls_invariants plain_optional_field true
              renaming_transport false
              [Update 1%positive (VDict rename);
               Edit 1%positive (Given "Team2") MISSING MISSING MISSING;
               Construct PrivateChannel (VDict rename)]
              team_world team_world_complete) as (Hcomplete & _ & _).
  split_and!; [exact Hcomplete | | | |]; vm_compute; reflexivity.
Defined.

Lemma edit_drops_empty_name_witness :
  edit plain_optional_field true renaming_transport false 1%positive
    (Given "") MISSING MISSING MISSING team_world = (team_world, Ok None)
  ∧ sent (edit plain_optional_field true renaming_transport false 1%positive
            (Given "") MISSING MISSING (Given false) team_world).1
    = [EditChannel (VStr "g1") {[ "nsfw" := Given (VBool false) ]}].
Proof.
  by apply (edit_drops_empty_name plain_optional_field true
              renaming_transport false 1%positive
              (Object Group team_group) (VStr "g1") false team_world).
Defined.

Lemma edit_name_failures_witness :
  let after :=
    edit plain_optional_field true forbidding_transport false 1%positive
      (Given "Team2") MISSING MISSING MISSING team_world in
  after.2 = Raise HTTPForbidden ∧
  heap (after.1) = heap team_world ∧
  sent (after.1)
  = [EditChannel (VStr "g1") {[ "name" := Given (VStr "Team2") ]}].
Proof.
  intros after.
  destruct (edit_name_failures plain_optional_field true
              forbidding_transport false 1%positive
              (Object Group team_group) (VStr "g1") "Team2" team_world)
    as (Hsent & Hraise & _); [reflexivity | reflexivity | discriminate |].
  destruct (Hraise HTTPForbidden eq_refl) as [Hresult Hheap].
  split_and!; [exact Hresult | exact Hheap | exact Hsent].
Defined.

Lemma async_with_closes_witness :
  let with_client :=
    ClientContext.async_with (A := unit) _ counting_async_init
      counting_close in
  let entered :=
    {| Client.http_handler := (1, 0); Client.initialized := true |} in
  Client.initialized _ (with_client entered (λ c, (c, Ok tt))).1 = false ∧
  Client.http_handler _ (with_client entered (λ c, (c, Ok tt))).1 = (1, 1).
Proof.
  intros with_client entered.
  destruct (async_with_closes _ counting_async_init counting_close
              entered (λ c, (c, Ok tt))) as [_ Hflag]; [done..|].
  split; [exact Hflag | reflexivity].
Defined.

Lemma async_with_nested_witness :
  let with_client :=
    ClientContext.async_with (A := unit) _ counting_async_init
      counting_close in
  with_client (Client.init _ (0, 0))
    (λ entered, with_client entered (λ c, (c, Ok tt)))
  = ({| Client.http_handler := (1, 1); Client.initialized := false |},
     Ok tt).
Proof.
  intros with_client. unfold with_client.
  rewrite async_with_nested; done.
Defined.

Lemma Category_channels_frame_witness :
  Category.channels abc (Cache.upsert_channel a_and_c "z" 99%positive)
  = [10%positive; 30%positive]
  ∧ Category.channels abc (Cache.remove_channel a_and_c "z")
    = [10%positive; 30%positive].
Proof.
  destruct (Category_channels_frame abc a_and_c "z" 99%positive)
    as [Hupsert Hremove].
  - simpl. rewrite !not_elem_of_cons.
    split_and!; [discriminate..|apply not_elem_of_nil].
  - split; [exact Hupsert | exact Hremove].
Defined.

Lemma Category_update_from_data_builds_witness :
  ∃ category,
    Category_of_attrs (Category_update_from_data (VDict lobby) ∅).1
    = Some category ∧
    Category.channel_ids category = [] ∧
    Category.channels category a_and_c = [].
Proof.
  destruct (Category_update_from_data_builds lobby "cat1" "Lobby" None)
    as [Hbuilds _]; [reflexivity..|].
  destruct (Hbuilds eq_refl) as [_ Hcategory].
  eexists. split; [exact Hcategory|]. split; reflexivity.
Defined.

Lemma update_in_place_edit_returns_new_instance_witness :
  let o := Object Group team_group in
  let edited :=
    edit plain_optional_field true renaming_transport false 1%positive
      (Given "Team2") MISSING MISSING MISSING team_world in
  let updated :=
    call_update_from_data plain_optional_field true 1%positive
      (VDict rename_full) team_world in
  heap team_world !! 1%positive = Some o ∧
  updated.2 = Ok tt ∧
  dom (heap (updated.1)) = dom (heap team_world) ∧
  (obj_attrs <$> heap (updated.1) !! 1%positive) ≫= (.!! "name")
    = Some (VStr "Team2") ∧
  edited.2 = Ok (Some 2%positive) ∧
  heap (edited.1) !! 1%positive = Some o ∧
  (obj_attrs <$> heap (edited.1) !! 2%positive) ≫= (.!! "name")
    = Some (VStr "Team2") ∧
  sent (edited.1)
    = [EditChannel (VStr "g1") {[ "name" := Given (VStr "Team2") ]}].
Proof.
  intros o edited updated.
  assert (fresh (dom (heap team_world)) = 2%positive) as Hfresh
    by (vm_compute; reflexivity).
  assert (update_from_data plain_optional_field true Group
            (VDict rename_full) ∅
          = ((update_from_data plain_optional_field true Group
                (VDict rename_full) ∅).1, Ok tt)) as Hconstruct
    by (vm_compute; reflexivity).
  assert (updated.2 = Ok tt) as Hok by (vm_compute; reflexivity).
  destruct (update_in_place_edit_returns_new_instance plain_optional_field
              true renaming_transport false 1%positive o (VDict rename_full)
              (Given "Team2") MISSING MISSING MISSING team_world eq_refl)
    as ((_ & _ & Hdom & _ & _ & Hreads) & Hedit & _).
  pose (json := ({[ "name" := Given (VStr "Team2") ]}
                   : gmap string (arg value))).
  assert (json ≠ ∅) as Hnonempty by apply map_non_empty_singleton.
  destruct (Hedit team_world json (VStr "g1") (VDict rename_full) _
              eq_refl Hnonempty eq_refl eq_refl Hconstruct)
    as (Hnew & _ & Hbuilt & Hkept & _ & Hsent).
  rewrite Hfresh in Hnew, Hbuilt.
  split_and!;
    [ vm_compute; reflexivity | exact Hok | exact Hdom | | exact Hnew
    | exact Hkept | | exact Hsent ].
  - apply (Hreads Hok "name" (Required "name")).
    + apply list_elem_of_further, list_elem_of_further, list_elem_of_here.
    + vm_compute; reflexivity.
  - unfold edited. rewrite Hbuilt. vm_compute. reflexivity.
Defined.

End MoreConcrete.
